(** * bot.py: membership gate, content index, delivery and cleanup

    A shallow embedding of the handlers of [bot.py] and the properties of
    its request-resolution and ephemeral-delivery pipeline.

    Modelling conventions.
    - A Python [str] is a list of Unicode code points.
    - The SQLite file [videos.db] is a value of type [store]; every handler
      touches it inside one synchronous block (no [await] between
      [connect_db] and [close]), which is embedded as one pure function on
      the store.  The database itself is taken to be reliable (no I/O errors).
    - Calls on the Telegram transport ([context.bot.*], [reply_text]) are
      answered by an [oracle], an arbitrary function of the history of the
      run so far: any call may return a value or raise.
    - [asyncio.create_task], [asyncio.sleep] and [print] are recorded in the
      trace and do not raise. *)

From Stdlib Require Import List ZArith NArith Bool String Ascii DecimalString Lia.
From Stdlib Require Import Sorted.
Import ListNotations.

Set Implicit Arguments.

(** ** Python strings *)

Definition char := N.
Definition str := list char.

(** An ASCII literal of the source, as a Python string. *)
Definition py (s : string) : str := map N_of_ascii (list_ascii_of_string s).

Fixpoint str_eqb (a b : str) : bool :=
  match a, b with
  | [], [] => true
  | x :: a', y :: b' => N.eqb x y && str_eqb a' b'
  | _, _ => false
  end.

(** [sep.join(parts)] *)
Fixpoint join (sep : str) (parts : list str) : str :=
  match parts with
  | [] => []
  | [p] => p
  | p :: rest => p ++ sep ++ join sep rest
  end.

(** [c.isspace()]: the code points Python treats as whitespace. *)
Definition isspace (c : char) : bool :=
  ((9 <=? c) && (c <=? 13) || (28 <=? c) && (c <=? 32) || (c =? 133) || (c =? 160)
   || (c =? 5760) || (8192 <=? c) && (c <=? 8202) || (c =? 8232) || (c =? 8233)
   || (c =? 8239) || (c =? 8287) || (c =? 12288))%N.

Fixpoint lstrip_by (p : char -> bool) (s : str) : str :=
  match s with
  | [] => []
  | c :: s' => if p c then lstrip_by p s' else s
  end.

(** [s.strip()] *)
Definition strip (s : str) : str :=
  rev (lstrip_by isspace (rev (lstrip_by isspace s))).

(** [s.lstrip('@')] *)
Definition lstrip_at (s : str) : str := lstrip_by (N.eqb 64) s.

(** [needle in s], decided by trying every position. *)
Fixpoint starts_with (needle s : str) : bool :=
  match needle, s with
  | [], _ => true
  | x :: needle', y :: s' => N.eqb x y && starts_with needle' s'
  | _ :: _, [] => false
  end.

Fixpoint contains (needle s : str) : bool :=
  starts_with needle s ||
  match s with
  | [] => false
  | _ :: s' => contains needle s'
  end.

(** ** The SQL [LIKE] operator

    SQLite's default [LIKE] (no [ESCAPE], [case_sensitive_like] off): [%]
    matches any run of characters, [_] matches exactly one, and two
    characters match when they are equal or are both ASCII and equal after
    lower-casing. *)

Definition percent : char := 37%N.
Definition underscore : char := 95%N.

Definition tolower (c : char) : char :=
  if ((65 <=? c) && (c <=? 90))%N then (c + 32)%N else c.

Definition like_char (c d : char) : bool := N.eqb (tolower c) (tolower d).

Fixpoint like (pattern s : str) : bool :=
  match pattern with
  | [] => match s with [] => true | _ :: _ => false end
  | c :: pattern' =>
      if N.eqb c percent then
        (fix skip (s : str) : bool :=
           like pattern' s ||
           match s with
           | [] => false
           | _ :: s' => skip s'
           end) s
      else
        match s with
        | [] => false
        | d :: s' =>
            if N.eqb c underscore then like pattern' s'
            else like_char c d && like pattern' s'
        end
  end.

(** The pattern bound by the handlers: [f"%{query}%"]. *)
Definition like_pattern (query : str) : str := percent :: query ++ [percent].

(** ** The database [videos.db] *)

(** A row of the table [videos]. *)
Record video_row := Row { id : Z; name : str; message_id : Z }.

(** [videos] lists the rows of the table in the order a table scan visits
    them; [users] is the table of registered user ids. *)
Record store := Store { videos : list video_row; users : list Z }.

(** The row id SQLite gives to a row inserted without one: 1 in an empty
    table, otherwise one more than the largest in use. *)
Definition next_id (rows : list video_row) : Z :=
  match rows with
  | [] => 1
  | r :: rows' => 1 + fold_left Z.max (map id rows') (id r)
  end%Z.

Inductive exn :=
| IntegrityError (detail : str)
| TelegramError (detail : str).

(** [str(e)] *)
Definition exn_str (e : exn) : str :=
  match e with
  | IntegrityError d => d
  | TelegramError d => d
  end.

(** [INSERT INTO videos (name, message_id) VALUES (?, ?)] under
    [name TEXT NOT NULL UNIQUE]. *)
Definition insert_video (n : str) (mid : Z) (s : store) : (Z + exn) * store :=
  if existsb (fun r => str_eqb (name r) n) (videos s) then
    (inr (IntegrityError (py "UNIQUE constraint failed: videos.name")), s)
  else
    let i := next_id (videos s) in
    (inl i, Store (videos s ++ [Row i n mid]) (users s)).

(** [INSERT OR IGNORE INTO users (user_id) VALUES (?)] *)
Definition insert_or_ignore_user (u : Z) (s : store) : store :=
  if existsb (Z.eqb u) (users s) then s
  else Store (videos s) (users s ++ [u]).

(** [SELECT message_id FROM videos WHERE name LIKE ?] then [fetchone()] *)
Definition select_message_id_like (pattern : str) (s : store) : option Z :=
  option_map message_id (find (fun r => like pattern (name r)) (videos s)).

(** [SELECT id FROM videos WHERE name LIKE ?] then [fetchone()] *)
Definition select_id_like (pattern : str) (s : store) : option Z :=
  option_map id (find (fun r => like pattern (name r)) (videos s)).

(** [DELETE FROM videos WHERE name LIKE ?] *)
Definition delete_like (pattern : str) (s : store) : store :=
  Store (filter (fun r => negb (like pattern (name r))) (videos s)) (users s).

(** ** The Telegram transport *)

Record button := InlineKeyboardButton { label : str; url : str }.

Inductive markup :=
| InlineKeyboardMarkup (rows : list (list button))
| ReplyKeyboardMarkup (keyboard : list (list str)) (resize_keyboard : bool).

(** The awaited calls.  The index is what the handlers read from the
    returned object: the [status] of a [ChatMember], the [message_id] of a
    [Message]. *)
Inductive call : Type -> Type :=
| get_chat_member (chat : str) (user_id : Z) : call str
| reply_text (chat_id : Z) (text : str) (reply_markup : option markup) : call Z
| send_message (chat_id : Z) (text : str) : call Z
| copy_message (chat_id from_chat_id mid : Z) : call Z
| delete_message (chat_id mid : Z) : call bool.

(** What a call answers: a value, or an exception with its text. *)
Inductive reply (X : Type) :=
| Ok (x : X)
| Failed (detail : str).
Arguments Failed {X} detail.

(** The coroutine handed to [asyncio.create_task]. *)
Inductive task :=
| DeleteMessagesAfterDelay (chat_id : Z) (message_ids : list Z) (delay : Z).

Inductive action :=
| create_task (t : task)
| sleep (delay : Z)
| print (line : str).

Inductive entry :=
| Called {X : Type} (c : call X) (r : reply X)
| Did (a : action).

Definition oracle := list entry -> forall X : Type, call X -> reply X.

(** ** Handlers as computations

    A computation runs against an oracle, the history of the run so far
    and the database, and yields what it returned or raised, the database
    it leaves and the entries it added to the history. *)

Record ran (A : Type) := Ran { outcome : A + exn; db_after : store; emitted : list entry }.

Definition M (A : Type) := oracle -> list entry -> store -> ran A.

Definition ret {A} (a : A) : M A := fun _ _ s => Ran (inl a) s [].

Definition raise {A} (e : exn) : M A := fun _ _ s => Ran (inr e) s [].

Definition bind {A B} (m : M A) (f : A -> M B) : M B :=
  fun o h s =>
    let r := m o h s in
    match outcome r with
    | inl a =>
        let r' := f a o (h ++ emitted r) (db_after r) in
        Ran (outcome r') (db_after r') (emitted r ++ emitted r')
    | inr e => Ran (inr e) (db_after r) (emitted r)
    end.

(** [try: m except Exception as e: handler e] *)
Definition try_except {A} (m : M A) (handler : exn -> M A) : M A :=
  fun o h s =>
    let r := m o h s in
    match outcome r with
    | inl _ => r
    | inr e =>
        let r' := handler e o (h ++ emitted r) (db_after r) in
        Ran (outcome r') (db_after r') (emitted r ++ emitted r')
    end.

(** [await c] *)
Definition await {X} (c : call X) : M X :=
  fun o h s =>
    let r := o h X c in
    Ran (match r with Ok x => inl x | Failed d => inr (TelegramError d) end)
        s [Called c r].

Definition do (a : action) : M unit := fun _ _ s => Ran (inl tt) s [Did a].

(** One synchronous block [connect_db() ... db_conn.close()]. *)
Definition sql {X} (q : store -> X * store) : M X :=
  fun _ _ s => let (x, s') := q s in Ran (inl x) s' [].

Declare Scope py_scope.
Delimit Scope py_scope with py.
Notation "x <- m ;; k" := (bind m (fun x => k))
  (at level 61, m at next level, right associativity) : py_scope.
Notation "m ;; k" := (bind m (fun _ => k))
  (at level 61, right associativity) : py_scope.
Open Scope py_scope.

(** A [for] body either falls through to the next iteration or executes
    [return a]. *)
Inductive flow (A : Type) :=
| Continue
| Return (a : A).
Arguments Continue {A}.

(** [for x in xs: body x] followed by [after]. *)
Fixpoint for_each {X A} (xs : list X) (body : X -> M (flow A)) (after : M A) : M A :=
  match xs with
  | [] => after
  | x :: xs' =>
      f <- body x ;;
      match f with
      | Return a => ret a
      | Continue => for_each xs' body after
      end
  end.

(** ** Messages of the bot *)

Definition joined_statuses : list str :=
  [py "member"; py "administrator"; py "creator"].

(** [status in ['member', 'administrator', 'creator']] *)
Definition is_joined (status : str) : bool := existsb (str_eqb status) joined_statuses.

Definition cross_mark : str := [10060%N].
Definition exclamation : str := [10071%N; 65039%N].
Definition pensive : str := [128532%N].
Definition check_mark : str := [9989%N].
Definition warning_sign : str := [9888%N; 65039%N].
Definition magnifier : str := [128269%N].

Definition join_to_get_text : str :=
  cross_mark ++ py " To get this file, you must first join our channel(s). After joining, please click the original link again.".

Definition join_to_use_text : str :=
  cross_mark ++ py " To use the bot, you must first join our channel(s). After joining, please click the '"
  ++ magnifier ++ py " Search Movie' button again.".

Definition auto_delete_text : str :=
  exclamation ++ py " This file will be automatically deleted in 30 seconds.".

Definition send_error_text (e : exn) : str :=
  py "Sorry, an error occurred while sending the file: " ++ exn_str e.

Definition invalid_link_text : str :=
  py "Sorry, the link is invalid or the requested movie was not found. " ++ pensive.

Definition movie_not_found_text : str :=
  py "Sorry, that movie could not be found. Please try again. " ++ pensive.

Definition ask_name_text : str :=
  py "Please send the name of the movie you want to search for. To cancel, type /cancel.".

Definition delvideo_usage_text : str := py "Usage: `/delvideo Movie Name`".

Definition deleted_text (query : str) : str :=
  check_mark ++ py " The record for '" ++ query
  ++ py "' has been successfully deleted from the database.".

Definition delete_not_found_text : str :=
  py "A movie with this name was not found in the database.".

Definition no_caption_text : str :=
  warning_sign ++ py " A video was posted in the channel without a caption and was not indexed.".

Definition indexed_text (video_name : str) : str :=
  check_mark ++ py " The video '" ++ video_name ++ py "' has been indexed successfully.".

Definition already_registered_text (video_name : str) : str :=
  warning_sign ++ py " A video with the name '" ++ video_name
  ++ py "' has already been registered.".

Definition indexing_error_text (e : exn) : str :=
  py "Error during indexing: " ++ exn_str e.

(** [str(n)] for an [int] *)
Definition str_of_int (n : Z) : str := py (NilZero.string_of_int (Z.to_int n)).

Definition could_not_delete_line (message_id : Z) (e : exn) : str :=
  py "Could not delete message " ++ str_of_int message_id ++ py ": " ++ exn_str e.

Definition welcome_text (first_name : str) : str :=
  py "Hello " ++ first_name ++ py "! " ++ [128075%N; 10%N; 10%N]
  ++ py "Welcome to the Movie Bot. Please choose an option from the menu below:".

Definition menu_keyboard : list (list str) :=
  [[magnifier ++ py " Search Movie"];
   [[128202%N] ++ py " Bot Stats"; [10067%N] ++ py " Help"]].

(** ** Inbound updates *)

(** [update.message]: the sender, the chat and the text. *)
Record message :=
  Message { from_user_id : Z; first_name : str; chat_id : Z; text : str }.

(** [update.channel_post]: whether it carries a video, its caption and its
    message id in the channel. *)
Record channel_post :=
  ChannelPost { video : bool; caption : option str; post_message_id : Z }.

(** The states of the search conversation. *)
Definition GET_MOVIE_NAME : Z := 1.
Definition END : Z := (-1).

(** ** The handlers *)

Section Bot.

(** Configuration: [ADMIN_ID] and [PRIVATE_CHANNEL_ID] are read from the
    environment; the source sets [CHANNELS_TO_JOIN = ["@lexobit"]]. *)
Variables ADMIN_ID PRIVATE_CHANNEL_ID : Z.
Variable CHANNELS_TO_JOIN : list str.

(** The deep-link argument reaches [WHERE id = ?] as text.  SQLite compares
    it with the INTEGER column after numeric conversion: [as_integer t] is
    the integer the text [t] denotes there, [None] when it denotes none (the
    comparison is then false for every row). *)
Variable as_integer : str -> option Z.

(** [SELECT message_id FROM videos WHERE id = ?] then [fetchone()] *)
Definition select_message_id_by_id (video_id : str) (s : store) : option Z :=
  match as_integer video_id with
  | Some n => option_map message_id (find (fun r => Z.eqb (id r) n) (videos s))
  | None => None
  end.

(** The body of the loop of [is_user_member]. *)
Definition check_channel (user_id : Z) (channel : str) : M (flow bool) :=
  try_except
    (status <- await (get_chat_member channel user_id) ;;
     if negb (is_joined status) then ret (Return false) else ret Continue)
    (fun _ => ret (Return false)).

Definition is_user_member (user_id : Z) : M bool :=
  for_each CHANNELS_TO_JOIN (check_channel user_id) (ret true).

(** The [buttons] built from [CHANNELS_TO_JOIN]. *)
Definition join_buttons : list (list button) :=
  map (fun channel =>
         [InlineKeyboardButton (py "Join " ++ channel)
                               (py "https://t.me/" ++ lstrip_at channel)])
      CHANNELS_TO_JOIN.

(** The [try] block shared, word for word, by [send_video_by_id] and
    [search_received_movie_name]. *)
Definition copy_and_schedule (msg : message) (message_id_to_copy : Z) : M unit :=
  try_except
    (sent_video <- await (copy_message (chat_id msg) PRIVATE_CHANNEL_ID message_id_to_copy) ;;
     warning_message <- await (reply_text (chat_id msg) auto_delete_text None) ;;
     do (create_task
           (DeleteMessagesAfterDelay (chat_id msg) [sent_video; warning_message] 30)))
    (fun e => await (reply_text (chat_id msg) (send_error_text e) None) ;; ret tt).

Definition send_video_by_id (msg : message) (video_id : str) : M unit :=
  member <- is_user_member (from_user_id msg) ;;
  if negb member then
    await (reply_text (chat_id msg) join_to_get_text
                      (Some (InlineKeyboardMarkup join_buttons))) ;;
    ret tt
  else
    result <- sql (fun s => (select_message_id_by_id video_id s, s)) ;;
    match result with
    | Some message_id_to_copy => copy_and_schedule msg message_id_to_copy
    | None => await (reply_text (chat_id msg) invalid_link_text None) ;; ret tt
    end.

Definition start (msg : message) (args : list str) : M unit :=
  try_except
    (sql (fun s => (tt, insert_or_ignore_user (from_user_id msg) s)))
    (fun e => do (print (py "Error registering user: " ++ exn_str e))) ;;
  match args with
  | video_id :: _ => send_video_by_id msg video_id
  | [] =>
      await (reply_text (chat_id msg) (welcome_text (first_name msg))
                        (Some (ReplyKeyboardMarkup menu_keyboard true))) ;;
      ret tt
  end.

Definition ask_for_movie_name (msg : message) : M Z :=
  member <- is_user_member (from_user_id msg) ;;
  if negb member then
    await (reply_text (chat_id msg) join_to_use_text
                      (Some (InlineKeyboardMarkup join_buttons))) ;;
    ret END
  else
    await (reply_text (chat_id msg) ask_name_text None) ;;
    ret GET_MOVIE_NAME.

Definition search_received_movie_name (msg : message) : M Z :=
  let query := text msg in
  result <- sql (fun s => (select_message_id_like (like_pattern query) s, s)) ;;
  match result with
  | Some message_id_to_copy => copy_and_schedule msg message_id_to_copy
  | None => await (reply_text (chat_id msg) movie_not_found_text None) ;; ret tt
  end ;;
  ret END.

Definition delete_video (msg : message) (args : list str) : M unit :=
  if negb (Z.eqb (from_user_id msg) ADMIN_ID) then ret tt
  else
    let query := join (py " ") args in
    match query with
    | [] => await (reply_text (chat_id msg) delvideo_usage_text None) ;; ret tt
    | _ :: _ =>
        result <- sql (fun s =>
                         match select_id_like (like_pattern query) s with
                         | Some i => (Some i, delete_like (like_pattern query) s)
                         | None => (None, s)
                         end) ;;
        match result with
        | Some _ => await (reply_text (chat_id msg) (deleted_text query) None) ;; ret tt
        | None => await (reply_text (chat_id msg) delete_not_found_text None) ;; ret tt
        end
    end.

Definition index_video (post : option channel_post) : M unit :=
  match post with
  | Some message =>
      if video message then
        match caption message with
        | None | Some [] => await (send_message ADMIN_ID no_caption_text) ;; ret tt
        | Some video_name =>
            try_except
              (inserted <- sql (insert_video (strip video_name) (post_message_id message)) ;;
               match inserted with
               | inr e => raise e
               | inl _ => await (send_message ADMIN_ID (indexed_text video_name)) ;; ret tt
               end)
              (fun e =>
                 match e with
                 | IntegrityError _ =>
                     await (send_message ADMIN_ID (already_registered_text video_name)) ;;
                     ret tt
                 | _ => await (send_message ADMIN_ID (indexing_error_text e)) ;; ret tt
                 end)
        end
      else ret tt
  | None => ret tt
  end.

(** The body of the loop of [delete_messages_after_delay]. *)
Definition delete_one (chat : Z) (message_id : Z) : M (flow unit) :=
  try_except
    (await (delete_message chat message_id) ;; ret Continue)
    (fun e => do (print (could_not_delete_line message_id e)) ;; ret Continue).

Definition delete_messages_after_delay (chat : Z) (message_ids : list Z) (delay : Z)
  : M unit :=
  do (sleep delay) ;;
  for_each message_ids (delete_one chat) (ret tt).

(** What the event loop runs for a task made by [asyncio.create_task]. *)
Definition run_task (t : task) : M unit :=
  match t with
  | DeleteMessagesAfterDelay chat message_ids delay =>
      delete_messages_after_delay chat message_ids delay
  end.

End Bot.

Arguments is_user_member CHANNELS_TO_JOIN user_id _ _ _ : rename.

Arguments is_joined : simpl never.
Arguments py : simpl never.
Arguments like : simpl never.
Arguments strip : simpl never.
Arguments str_of_int : simpl never.

(** ** Observations on traces *)

(** A membership lookup that raised, or answered a status outside
    [joined_statuses]. *)
Definition lookup_fails (e : entry) : bool :=
  match e with
  | Called c r =>
      match c in call X return reply X -> bool with
      | get_chat_member _ _ =>
          fun r => match r with Ok status => negb (is_joined status) | Failed _ => true end
      | _ => fun _ => false
      end r
  | Did _ => false
  end.

(** A lookup of [user_id] in [channel] that answered one of
    [joined_statuses]. *)
Definition lookup_passes (user_id : Z) (channel : str) (e : entry) : Prop :=
  exists status,
    e = Called (get_chat_member channel user_id) (Ok status) /\ is_joined status = true.

(** A lookup answer that counts as membership. *)
Definition reports_joined (r : reply str) : bool :=
  match r with
  | Ok status => is_joined status
  | Failed _ => false
  end.

Definition is_lookup (e : entry) : bool :=
  match e with
  | Called (get_chat_member _ _) _ => true
  | _ => false
  end.

Definition is_copy (e : entry) : bool :=
  match e with
  | Called (copy_message _ _ _) _ => true
  | _ => false
  end.

Definition is_create_task (e : entry) : bool :=
  match e with
  | Did (create_task _) => true
  | _ => false
  end.

Definition is_sleep (e : entry) : bool :=
  match e with
  | Did (sleep _) => true
  | _ => false
  end.

(** The detail of a [copy_message] that raised. *)
Definition copy_failure (e : entry) : option str :=
  match e with
  | Called (copy_message _ _ _) (Failed d) => Some d
  | _ => None
  end.

(** The arguments of a [copy_message], and the arguments and the new
    message id of one that returned. *)
Definition copy_sent (e : entry) : option (Z * Z * Z) :=
  match e with
  | Called (copy_message chat from mid) _ => Some (chat, from, mid)
  | _ => None
  end.

Definition copy_done (e : entry) : option Z :=
  match e with
  | Called (copy_message _ _ _) (Ok sent) => Some sent
  | _ => None
  end.

(** The arguments of a [reply_text], whatever it answered. *)
Definition reply_sent (e : entry) : option (Z * str * option markup) :=
  match e with
  | Called (reply_text chat t k) _ => Some (chat, t, k)
  | _ => None
  end.

(** The text and the exception detail of a [reply_text] that raised. *)
Definition reply_failure (e : entry) : option (str * str) :=
  match e with
  | Called (reply_text _ t _) (Failed d) => Some (t, d)
  | _ => None
  end.

(** The arguments of a [send_message], whatever it answered. *)
Definition message_sent (e : entry) : option (Z * str) :=
  match e with
  | Called (send_message chat t) _ => Some (chat, t)
  | _ => None
  end.

(** The chat and message id of a [delete_message], and the message id and
    exception detail of one that raised. *)
Definition delete_sent (e : entry) : option (Z * Z) :=
  match e with
  | Called (delete_message chat mid) _ => Some (chat, mid)
  | _ => None
  end.

Definition delete_failure (e : entry) : option (Z * str) :=
  match e with
  | Called (delete_message _ mid) (Failed d) => Some (mid, d)
  | _ => None
  end.

(** The [delete_message] calls of a trace, in order. *)
Definition deletions (t : list entry) : list (Z * Z) :=
  flat_map (fun e => match delete_sent e with Some d => [d] | None => [] end) t.

(** ** The shapes of a run *)

(** The verdict and the lookups of one pass over the channels, read off
    the oracle: the pass stops at the first lookup that fails. *)
Fixpoint gate (channels : list str) (user_id : Z) (o : oracle) (h : list entry)
  : bool * list entry :=
  match channels with
  | [] => (true, [])
  | channel :: rest =>
      let r := o h str (get_chat_member channel user_id) in
      let e := Called (get_chat_member channel user_id) r in
      match r with
      | Ok status =>
          if is_joined status then
            let (b, t) := gate rest user_id o (h ++ [e]) in (b, e :: t)
          else (false, [e])
      | Failed _ => (false, [e])
      end
  end.

(** The three ways the shared [try] block can go. *)
Inductive delivery (chat : Z) (t : list entry) : Prop :=
| CopyFailed e1 e2 d
    (Et : t = [e1; e2])
    (Hcopy : copy_failure e1 = Some d)
    (Hreport : reply_sent e2 = Some (chat, send_error_text (TelegramError d), None))
| WarningFailed e1 e2 e3 sent d
    (Et : t = [e1; e2; e3])
    (Hcopy : copy_done e1 = Some sent)
    (Hwarn : reply_failure e2 = Some (auto_delete_text, d))
    (Hreport : reply_sent e3 = Some (chat, send_error_text (TelegramError d), None))
| Delivered e1 e2 sent warning
    (Et : t = [e1; e2; Did (create_task (DeleteMessagesAfterDelay chat [sent; warning] 30))])
    (Hcopy : copy_done e1 = Some sent)
    (Hwarn : e2 = Called (reply_text chat auto_delete_text None) (Ok warning)).

(** The three ways [send_video_by_id] can go: the gate denies, the
    identifier selects no row, or the selected message is handed to the
    shared [try] block. *)
Inductive deep_link_run (P : Z) (channels : list str) (as_integer : str -> option Z)
          (msg : message) (video_id : str) (s : store) (t : list entry) : Prop :=
| LinkDenied lookups prompt
    (Et : t = lookups ++ [prompt])
    (Hlookups : forallb is_lookup lookups = true)
    (Hfails : existsb lookup_fails lookups = true)
    (Hprompt : reply_sent prompt
               = Some (chat_id msg, join_to_get_text,
                       Some (InlineKeyboardMarkup (join_buttons channels))))
| LinkUnknown lookups report
    (Et : t = lookups ++ [report])
    (Hlookups : Forall2 (lookup_passes (from_user_id msg)) channels lookups)
    (Hselect : select_message_id_by_id as_integer video_id s = None)
    (Hreport : reply_sent report = Some (chat_id msg, invalid_link_text, None))
| LinkFound lookups mid e t'
    (Et : t = lookups ++ e :: t')
    (Hlookups : Forall2 (lookup_passes (from_user_id msg)) channels lookups)
    (Hselect : select_message_id_by_id as_integer video_id s = Some mid)
    (Hcopy : copy_sent e = Some (chat_id msg, P, mid))
    (Hdelivery : delivery (chat_id msg) (e :: t')).

(** The two ways [search_received_movie_name] can go. *)
Inductive search_run (P : Z) (msg : message) (s : store) (t : list entry) : Prop :=
| SearchNotFound report
    (Et : t = [report])
    (Hselect : select_message_id_like (like_pattern (text msg)) s = None)
    (Hreport : reply_sent report = Some (chat_id msg, movie_not_found_text, None))
| SearchFound mid e t'
    (Et : t = e :: t')
    (Hselect : select_message_id_like (like_pattern (text msg)) s = Some mid)
    (Hcopy : copy_sent e = Some (chat_id msg, P, mid))
    (Hdelivery : delivery (chat_id msg) (e :: t')).

(** Both resolution paths end the same way: after the lookups of the gate
    (none on the search path), either the shared [try] block or one reply. *)
Definition resolved (chat : Z) (t : list entry) : Prop :=
  exists lookups tail,
    t = lookups ++ tail /\
    forallb is_lookup lookups = true /\
    (delivery chat tail \/ exists x k, tail = [x] /\ reply_sent x = Some k).

(** ** Contract of the content index, in the words of the specification *)

(** [q] occurs in [s] as a contiguous run of characters. *)
Definition substring (q s : str) : Prop := exists a b, s = a ++ q ++ b.

(** [q] occurs in [s] up to the case of ASCII letters. *)
Definition caseless_substring (q s : str) : Prop :=
  exists a m b, s = a ++ m ++ b /\ map tolower m = map tolower q.

(** A character that [LIKE] reads as a wildcard. *)
Definition is_wildcard (c : char) : bool := N.eqb c percent || N.eqb c underscore.

(** [findByNameSubstring] as the specification words it: the first record,
    in store order, whose name contains the query, compared case-sensitively. *)
Definition findByNameSubstring_spec (query : str) (s : store) : option video_row :=
  find (fun r => contains query (name r)) (videos s).

(** [deleteByNameSubstring] as the specification words it: every record
    whose name contains the query goes, and the result tells whether there
    was one. *)
Definition deleteByNameSubstring_spec (query : str) (s : store) : bool * store :=
  (existsb (fun r => contains query (name r)) (videos s),
   Store (filter (fun r => negb (contains query (name r))) (videos s)) (users s)).

(** ** Sample configuration, transports and runs *)

(** [CHANNELS_TO_JOIN] as the source sets it. *)
Definition lexobit : list str := [py "@lexobit"].

Fixpoint digits_value (acc : Z) (s : str) : option Z :=
  match s with
  | [] => Some acc
  | c :: s' =>
      if ((48 <=? c) && (c <=? 57))%N
      then digits_value (10 * acc + Z.of_N (c - 48)) s'
      else None
  end.

(** The integer denoted by a non-empty run of ASCII digits: the reading of
    such a text that SQLite's numeric conversion gives. *)
Definition decimal (s : str) : option Z :=
  match s with
  | [] => None
  | _ :: _ => digits_value 0 s
  end.

(** A transport on which every call succeeds: every user is a [member], and
    each new message gets a fresh id. *)
Definition all_fine : oracle :=
  fun h X c =>
    match c in call X return reply X with
    | get_chat_member _ _ => Ok (py "member")
    | reply_text _ _ _ => Ok (1000 + Z.of_nat (List.length h))%Z
    | send_message _ _ => Ok (1000 + Z.of_nat (List.length h))%Z
    | copy_message _ _ _ => Ok (1000 + Z.of_nat (List.length h))%Z
    | delete_message _ _ => Ok true
    end.

(** As [all_fine], but the user has [left] every channel. *)
Definition not_joined : oracle :=
  fun h X c =>
    match c in call X return reply X with
    | get_chat_member _ _ => Ok (py "left")
    | c' => all_fine h c'
    end.

(** As [all_fine], but every membership lookup raises. *)
Definition lookup_raises : oracle :=
  fun h X c =>
    match c in call X return reply X with
    | get_chat_member _ _ => Failed (py "Chat not found")
    | c' => all_fine h c'
    end.

(** As [all_fine], but [copy_message] raises. *)
Definition copy_raises : oracle :=
  fun h X c =>
    match c in call X return reply X with
    | copy_message _ _ _ => Failed (py "Forbidden: bot was blocked by the user")
    | c' => all_fine h c'
    end.

(** As [all_fine], but the warning notice cannot be sent. *)
Definition warning_raises : oracle :=
  fun h X c =>
    match c in call X return reply X with
    | reply_text _ t _ =>
        if str_eqb t auto_delete_text then Failed (py "Timed out")
        else Ok (1000 + Z.of_nat (List.length h))%Z
    | c' => all_fine h c'
    end.

(** As [all_fine], but deleting message 100 raises. *)
Definition delete_100_raises : oracle :=
  fun h X c =>
    match c in call X return reply X with
    | delete_message _ mid =>
        if Z.eqb mid 100 then Failed (py "Message to delete not found") else Ok true
    | c' => all_fine h c'
    end.

Definition alice : message := Message 7 (py "Alice") 70 (py "matrix").

Definition one_movie : store := Store [Row 5 (py "Matrix") 10] [].

Definition two_movies : store :=
  Store [Row 1 (py "Matrix 1") 11; Row 2 (py "Inception (2010)") 12; Row 3 (py "Matrix 2") 13] [].

Definition empty_store : store := Store [] [].

Definition new_post : channel_post := ChannelPost true (Some (py "  Matrix 1 ")) 21.

Definition second_post : channel_post := ChannelPost true (Some (py "Matrix 2")) 22.

Definition repost : channel_post := ChannelPost true (Some (py "Matrix 1")) 23.

(** Entries of sample runs. *)
Definition sample_lookup : entry :=
  Called (get_chat_member (py "@lexobit") 7) (Ok (py "member")).

Definition sample_failed_copy : entry :=
  Called (copy_message 70 0 10) (Failed (py "Forbidden: bot was blocked by the user")).

Definition sample_failed_warning : entry :=
  Called (reply_text 70 auto_delete_text None) (Failed (py "Timed out")).

Definition sample_report (detail : str) : entry :=
  Called (reply_text 70 (send_error_text (TelegramError detail)) None) (Ok 1002%Z).

(** ** How the store reads a text as a row id

    [WHERE id = ?] receives the deep-link argument as text.  SQLite looks the
    row up by its integer key after giving the text NUMERIC affinity: a text
    that is not a number selects no row; a text in integer form that fits 64
    bits is read exactly; any other number is converted to a binary64 value
    (by [sqlite3AtoF], as SQLite 3.40 computes it with an 80-bit intermediate)
    and selects the row whose id equals that value, if it is an integer
    strictly inside the 64-bit range. *)

Definition is_sqlite_space (c : char) : bool :=
  (N.eqb c 32 || (N.leb 9 c && N.leb c 13))%N.

Definition is_digit (c : char) : bool := (N.leb 48 c && N.leb c 57)%N.

(** The leading run of ASCII digits, as digit values, and what follows. *)
Fixpoint take_digits (s : str) : list Z * str :=
  match s with
  | [] => ([], [])
  | c :: s' =>
      if is_digit c
      then let (ds, rest) := take_digits s' in (Z.of_N (c - 48) :: ds, rest)
      else ([], s)
  end.

Definition digits_to_Z (ds : list Z) : Z :=
  fold_left (fun acc d => 10 * acc + d)%Z ds 0%Z.

(** An optional [-] or [+]; [true] for [-]. *)
Definition take_sign (s : str) : bool * str :=
  match s with
  | c :: s' =>
      if N.eqb c 45 then (true, s') else if N.eqb c 43 then (false, s') else (false, s)
  | [] => (false, [])
  end.

(** An optional [.] followed by digits (possibly none). *)
Definition take_fraction (s : str) : option (list Z) * str :=
  match s with
  | c :: s' =>
      if N.eqb c 46 then let (ds, rest) := take_digits s' in (Some ds, rest)
      else (None, s)
  | [] => (None, [])
  end.

(** An optional [e] or [E], an optional sign and the exponent's digits. *)
Definition take_exponent (s : str) : option (bool * list Z) * str :=
  match s with
  | c :: s' =>
      if (N.eqb c 101 || N.eqb c 69)%bool then
        let (neg, s1) := take_sign s' in
        let (ds, rest) := take_digits s1 in
        (Some (neg, ds), rest)
      else (None, s)
  | [] => (None, [])
  end.

(** A numeric literal: sign, digits before the point, digits after it when
    there is a point, sign and digits of the exponent when there is one. *)
Record literal := Literal {
  negative : bool;
  int_digits : list Z;
  fraction : option (list Z);
  exponent : option (bool * list Z)
}.

Definition frac_digits (l : literal) : list Z :=
  match fraction l with
  | Some ds => ds
  | None => []
  end.

(** A text is a number when, between optional spaces, it is a sign, digits
    with an optional point among them (at least one digit), and an optional
    exponent with at least one digit. *)
Definition parse_literal (t : str) : option literal :=
  let (neg, s1) := take_sign (lstrip_by is_sqlite_space t) in
  let (ints, s2) := take_digits s1 in
  let (frac, s3) := take_fraction s2 in
  let (expo, s4) := take_exponent s3 in
  let l := Literal neg ints frac expo in
  match lstrip_by is_sqlite_space s4, ints ++ frac_digits l, expo with
  | [], _ :: _, None => Some l
  | [], _ :: _, Some (_, _ :: _) => Some l
  | _, _, _ => None
  end.

Definition integer_form (l : literal) : bool :=
  match fraction l, exponent l with
  | None, None => true
  | _, _ => false
  end.

Definition signed (neg : bool) (v : Z) : Z := if neg then (- v)%Z else v.

(** The exact value of a literal, as numerator and denominator. *)
Definition literal_value (l : literal) : Z * Z :=
  let m := signed (negative l) (digits_to_Z (int_digits l ++ frac_digits l)) in
  let e := (match exponent l with
            | Some (neg, ds) => signed neg (digits_to_Z ds)
            | None => 0
            end - Z.of_nat (List.length (frac_digits l)))%Z in
  if (0 <=? e)%Z then (m * 10 ^ e, 1)%Z else (m, 10 ^ (- e))%Z.

(** [sqlite3AtoF] keeps the digits of the significand while it is below
    this bound and drops the later ones. *)
Definition atof_limit : Z := ((2 ^ 63 - 1 - 9) / 10)%Z.

(** The digits before the point: the significand, and how many digits were
    dropped. *)
Fixpoint atof_int (ds : list Z) (s : Z) : Z * Z :=
  match ds with
  | [] => (s, 0%Z)
  | c :: ds' =>
      let s' := (10 * s + c)%Z in
      if (atof_limit <=? s')%Z then (s', Z.of_nat (List.length ds')) else atof_int ds' s'
  end.

(** The digits after the point: each one kept lowers the decimal exponent. *)
Fixpoint atof_frac (ds : list Z) (s d : Z) : Z * Z :=
  match ds with
  | [] => (s, d)
  | c :: ds' =>
      if (s <? atof_limit)%Z then atof_frac ds' (10 * s + c)%Z (d - 1)%Z
      else atof_frac ds' s d
  end.

(** The exponent's digits, capped. *)
Definition atof_exp (ds : list Z) : Z :=
  fold_left (fun e c => if (e <? 10000)%Z then (10 * e + c)%Z else 10000%Z) ds 0%Z.

(** The integer nearest to [n/d], halves to the even one. *)
Definition round_half_even (n d : Z) : Z :=
  let q := (n / d)%Z in
  match (2 * (n mod d) ?= d)%Z with
  | Lt => q
  | Gt => (q + 1)%Z
  | Eq => if Z.even q then q else (q + 1)%Z
  end.

(** [n/d > 0] rounded to [p] significant bits, with binary exponent not
    below [emin]: the significand and the exponent of the result. *)
Definition round_binary (p emin n d : Z) : Z * Z :=
  let l := (Z.log2 n - Z.log2 d)%Z in
  let k := if (if 0 <=? l then d * 2 ^ l <=? n else d <=? n * 2 ^ (- l))%Z
           then l else (l - 1)%Z in
  let x := Z.max (k - (p - 1)) emin in
  (if (0 <=? x)%Z then round_half_even n (d * 2 ^ x) else round_half_even (n * 2 ^ (- x)) d,
   x).

(** Before a division by a power of ten, trailing zeros of the significand
    are traded against the exponent (a significand has at most 19 digits). *)
Fixpoint atof_reduce (fuel : nat) (s e : Z) : Z * Z :=
  match fuel with
  | O => (s, e)
  | S fuel' =>
      if ((e <? 0) && (s mod 10 =? 0))%Z then atof_reduce fuel' (s / 10)%Z (e + 1)%Z
      else (s, e)
  end.

(** The binary64 value computed for significand [s > 0] and decimal
    exponent [e], when that value is an integer below [10 ^ 19] (which every
    row id is): a quotient by [10 ^ 342] or more is zero; otherwise the
    product or quotient is formed with 64 significant bits, then stored with
    53. *)
Definition atof_integer (s e : Z) : option Z :=
  let (s, e) := atof_reduce 19 s e in
  if (e <=? -342)%Z then Some 0%Z
  else if (19 <=? e)%Z then None
  else
    let (m1, x1) := if (0 <=? e)%Z then round_binary 64 (-16445) (s * 10 ^ e) 1
                    else round_binary 64 (-16445) s (10 ^ (- e)) in
    if (m1 =? 0)%Z then Some 0%Z
    else
      let (m2, x2) := if (0 <=? x1)%Z then round_binary 53 (-1074) (m1 * 2 ^ x1) 1
                      else round_binary 53 (-1074) m1 (2 ^ (- x1)) in
      if (0 <=? x2)%Z then Some (m2 * 2 ^ x2)%Z
      else if (m2 mod 2 ^ (- x2) =? 0)%Z then Some (m2 / 2 ^ (- x2))%Z else None.

(** The row id a text selects in [WHERE id = ?], if any. *)
Definition rowid_of_text (t : str) : option Z :=
  match parse_literal t with
  | None => None
  | Some l =>
      let exact := signed (negative l) (digits_to_Z (int_digits l)) in
      if integer_form l && (- 2 ^ 63 <=? exact)%Z && (exact <=? 2 ^ 63 - 1)%Z then Some exact
      else
        let (s0, dropped) := atof_int (int_digits l) 0 in
        let (s, d) := atof_frac (frac_digits l) s0 dropped in
        let e := (match exponent l with
                  | Some (neg, ds) => signed neg (atof_exp ds)
                  | None => 0
                  end + d)%Z in
        if (s =? 0)%Z then Some 0%Z
        else
          match atof_integer s e with
          | Some i =>
              let r := signed (negative l) i in
              if (- 2 ^ 63 <? r)%Z && (r <? 2 ^ 63 - 1)%Z then Some r else None
          | None => None
          end
  end.

(** The exact value of a text that is a number. *)
Definition text_value (t : str) : option (Z * Z) := option_map literal_value (parse_literal t).

(** ** Proof automation *)

Ltac step := cbn [outcome db_after emitted app fst snd].

(** Case analysis on every answer of the transport [o] left in the goal. *)
Ltac answers o :=
  repeat match goal with
         | |- context [o ?h ?X ?c] => destruct (o h X c) eqn:?; step
         end.

(** Case analysis on an entry of a trace, down to the call and its answer. *)
Ltac observe e :=
  destruct e as [? [] []|[]]; cbn in *; try discriminate; try congruence.

(** ** The remaining handlers *)

Definition cancel_text : str := py "Search operation has been canceled.".

Definition help_text : str :=
  py "To search for a movie, please use the '" ++ magnifier
  ++ py " Search Movie' button from the menu.".

Definition stats_text (total_users total_videos : Z) : str :=
  [128202%N] ++ py " Bot Statistics:" ++ [10%N; 10%N]
  ++ py "Total Users: " ++ str_of_int total_users ++ [10%N]
  ++ py "Total Movies: " ++ str_of_int total_videos.

Definition getlink_usage_text : str := py "Usage: `/getlink Movie Name`".

(** [f"https://t.me/{context.bot.username}?start={video_id}"] *)
Definition link_text (username : str) (video_id : Z) : str :=
  py "https://t.me/" ++ username ++ py "?start=" ++ str_of_int video_id.

Definition dedicated_link_text (query link : str) : str :=
  py "Dedicated link for '" ++ query ++ py "':" ++ [10%N; 10%N]
  ++ py "`" ++ link ++ py "`".

Definition link_not_found_text : str := py "A movie with this name was not found.".

(** [SELECT COUNT(id) FROM videos] and [SELECT COUNT(user_id) FROM users]:
    both columns are primary keys, so each count is the number of rows. *)
Definition count_videos (s : store) : Z := Z.of_nat (List.length (videos s)).
Definition count_users (s : store) : Z := Z.of_nat (List.length (users s)).

Section Menu.

Variable ADMIN_ID : Z.

(** [context.bot.username] *)
Variable username : str.

Definition cancel_search (msg : message) : M Z :=
  await (reply_text (chat_id msg) cancel_text None) ;;
  ret END.

Definition help_command (msg : message) : M unit :=
  await (reply_text (chat_id msg) help_text None) ;;
  ret tt.

Definition bot_stats (msg : message) : M unit :=
  totals <- sql (fun s => ((count_videos s, count_users s), s)) ;;
  let (total_videos, total_users) := totals in
  await (reply_text (chat_id msg) (stats_text total_users total_videos) None) ;;
  ret tt.

(** The reply that carries the link is sent with [parse_mode='Markdown'],
    which tells Telegram how to render the text; the recorded call keeps the
    chat and the text. *)
Definition get_link (msg : message) (args : list str) : M unit :=
  if negb (Z.eqb (from_user_id msg) ADMIN_ID) then ret tt
  else
    let query := join (py " ") args in
    match query with
    | [] => await (reply_text (chat_id msg) getlink_usage_text None) ;; ret tt
    | _ :: _ =>
        result <- sql (fun s => (select_id_like (like_pattern query) s, s)) ;;
        match result with
        | Some video_id =>
            let link := link_text username video_id in
            await (reply_text (chat_id msg) (dedicated_link_text query link) None) ;;
            ret tt
        | None => await (reply_text (chat_id msg) link_not_found_text None) ;; ret tt
        end
    end.

End Menu.

(** ** Invariant of the database *)

(** The names are pairwise distinct, the ids increase along the table, and
    no user id is listed twice. *)
Definition store_ok (s : store) : Prop :=
  NoDup (map name (videos s)) /\
  StronglySorted Z.lt (map id (videos s)) /\
  NoDup (users s).

(** ** More observations on traces *)

(** The channel and user of a [get_chat_member]. *)
Definition lookup_sent (e : entry) : option (str * Z) :=
  match e with
  | Called (get_chat_member channel u) _ => Some (channel, u)
  | _ => None
  end.

Definition lookups_of (t : list entry) : list (str * Z) :=
  flat_map (fun e => match lookup_sent e with Some l => [l] | None => [] end) t.

(** The text and the exception detail of a [send_message] that raised. *)
Definition message_failure (e : entry) : option (str * str) :=
  match e with
  | Called (send_message _ t) (Failed d) => Some (t, d)
  | _ => None
  end.

(** The tasks created in a trace, in order. *)
Definition tasks_of (t : list entry) : list task :=
  flat_map (fun e => match e with Did (create_task k) => [k] | _ => [] end) t.

(** As [all_fine], but the announcement of a successful indexing raises. *)
Definition announcement_raises : oracle :=
  fun h X c =>
    match c in call X return reply X with
    | send_message _ _ =>
        match h with
        | [] => Failed (py "Timed out")
        | _ :: _ => Ok (1000 + Z.of_nat (List.length h))%Z
        end
    | c' => all_fine h c'
    end.

Definition bob : message := Message 8 (py "Bob") 80 (py "atrix").

(** The last entry of a trace. *)
Definition last_entry (t : list entry) : option entry := hd_error (rev t).

(** A run that raises does so because its last call, a [reply_text],
    raised: the exception is that call's. *)
Definition raised_by_last_reply {A : Type} (r : ran A) : Prop :=
  forall e,
    outcome r = inr e ->
    exists last txt d,
      last_entry (emitted r) = Some last /\
      reply_failure last = Some (txt, d) /\
      e = TelegramError d.

(** As [all_fine], but no reply can be sent. *)
Definition replies_raise : oracle :=
  fun h X c =>
    match c in call X return reply X with
    | reply_text _ _ _ => Failed (py "Forbidden: bot was blocked by the user")
    | c' => all_fine h c'
    end.

(** Closes [raised_by_last_reply] on a run whose answers are all known. *)
Ltac by_last_reply skip_prefix :=
  intros e He; try discriminate He; injection He as <-;
  do 3 eexists;
  (split; [first [reflexivity | apply skip_prefix; reflexivity] | split; reflexivity]).

(** * Properties *)

Unset Implicit Arguments.

(** ** The membership gate *)

Lemma is_user_member_run (channels : list str) (u : Z) (o : oracle) h s :
  is_user_member channels u o h s
  = Ran (inl (fst (gate channels u o h))) s (snd (gate channels u o h)).
Proof.
  revert h; induction channels as [|ch rest IH]; intros h; [reflexivity|].
  unfold is_user_member in *; cbn [for_each gate].
  unfold bind at 1, check_channel, try_except, bind, await, ret.
  destruct (o h str (get_chat_member ch u)) as [status|d]; cbn; [|reflexivity].
  destruct (is_joined status); cbn; [|reflexivity].
  rewrite IH; cbn.
  destruct (gate rest u o _); reflexivity.
Qed.

Lemma gate_false_iff channels u o h :
  fst (gate channels u o h) = false
  <-> existsb lookup_fails (snd (gate channels u o h)) = true.
Proof.
  revert h; induction channels as [|ch rest IH]; intros h; cbn.
  - split; discriminate.
  - destruct (o h str (get_chat_member ch u)) as [status|d]; cbn.
    + destruct (is_joined status) eqn:J; cbn.
      * specialize (IH (h ++ [Called (get_chat_member ch u) (Ok status)])).
        destruct (gate rest u o _) as [b t]; cbn in *.
        rewrite J; cbn. exact IH.
      * rewrite J; cbn. split; reflexivity.
    + split; reflexivity.
Qed.

Lemma gate_true_iff channels u o h :
  fst (gate channels u o h) = true
  <-> Forall2 (lookup_passes u) channels (snd (gate channels u o h)).
Proof.
  revert h; induction channels as [|ch rest IH]; intros h; cbn.
  - split; [constructor | reflexivity].
  - destruct (o h str (get_chat_member ch u)) as [status|d] eqn:R; cbn.
    + destruct (is_joined status) eqn:J; cbn.
      * specialize (IH (h ++ [Called (get_chat_member ch u) (Ok status)])).
        destruct (gate rest u o _) as [b t]; cbn in *.
        split.
        -- intros Hb. constructor; [exists status; auto | apply IH, Hb].
        -- intros HF. inversion HF; subst. apply IH; assumption.
      * split; [discriminate|].
        intros HF. inversion HF as [|? ? ? ? [st [E Hst]] HF']; subst.
        inversion HF'; subst.
        assert (lookup_fails (Called (get_chat_member ch u) (Ok status)) = false) as F
            by (rewrite E; cbn; rewrite Hst; reflexivity).
        cbn in F. rewrite J in F. discriminate.
    + split; [discriminate|].
      intros HF. inversion HF as [|? ? ? ? [st [E Hst]] HF']; subst.
      assert (lookup_fails (Called (get_chat_member ch u) (@Failed str d)) = false) as F
          by (rewrite E; cbn; rewrite Hst; reflexivity).
      discriminate.
Qed.

Lemma gate_lookups channels u o h :
  forallb is_lookup (snd (gate channels u o h)) = true.
Proof.
  revert h; induction channels as [|ch rest IH]; intros h; cbn; [reflexivity|].
  destruct (o h str (get_chat_member ch u)) as [status|d]; cbn; [|reflexivity].
  destruct (is_joined status); cbn; [|reflexivity].
  specialize (IH (h ++ [Called (get_chat_member ch u) (Ok status)])).
  destruct (gate rest u o _); cbn in *. exact IH.
Qed.

Lemma gate_static channels u (o : oracle) h (answer : str -> reply str) :
  (forall h' channel, o h' str (get_chat_member channel u) = answer channel) ->
  fst (gate channels u o h) = forallb (fun channel => reports_joined (answer channel)) channels.
Proof.
  intros Ho. revert h; induction channels as [|ch rest IH]; intros h; cbn; [reflexivity|].
  rewrite Ho. destruct (answer ch) as [status|d]; cbn; [|reflexivity].
  destruct (is_joined status); cbn; [|reflexivity].
  specialize (IH (h ++ [Called (get_chat_member ch u) (Ok status)])).
  destruct (gate rest u o _); exact IH.
Qed.

(** C1.  [is_user_member] always returns, changes nothing in the database
    and only performs membership lookups.  It returns [False] exactly when
    one of the lookups it made raised or answered a status other than
    member, administrator or creator, and it returns [True] exactly when
    its lookups are one per required channel, in order, each answering one
    of those three statuses for the user.  When the answer for each channel
    does not change during the run, the result is [True] exactly when every
    required channel answers one of the three statuses. *)
Theorem is_user_member_fail_closed (channels : list str) (u : Z) (o : oracle) h s :
  let r := is_user_member channels u o h s in
  (exists b, outcome r = inl b) /\
  db_after r = s /\
  forallb is_lookup (emitted r) = true /\
  (existsb lookup_fails (emitted r) = true <-> outcome r = inl false) /\
  (outcome r = inl true <-> Forall2 (lookup_passes u) channels (emitted r)) /\
  (forall answer : str -> reply str,
      (forall h' channel, o h' str (get_chat_member channel u) = answer channel) ->
      outcome r
      = inl (forallb (fun channel => reports_joined (answer channel)) channels)).
Proof.
  rewrite is_user_member_run; cbn.
  split; [eexists; reflexivity|].
  split; [reflexivity|].
  split; [apply gate_lookups|].
  split; [|split].
  - rewrite <- gate_false_iff. split; congruence.
  - rewrite <- gate_true_iff. split; congruence.
  - intros answer Ho. rewrite (gate_static channels u o h answer Ho). reflexivity.
Qed.

Lemma is_user_member_fail_closed_witness :
  outcome (is_user_member lexobit 7 not_joined [] one_movie) = inl false /\
  outcome (is_user_member lexobit 7 lookup_raises [] one_movie) = inl false /\
  Forall2 (lookup_passes 7) lexobit (emitted (is_user_member lexobit 7 all_fine [] one_movie)).
Proof.
  split; [|split].
  - apply (is_user_member_fail_closed lexobit 7 not_joined [] one_movie). reflexivity.
  - apply (is_user_member_fail_closed lexobit 7 lookup_raises [] one_movie). reflexivity.
  - apply (is_user_member_fail_closed lexobit 7 all_fine [] one_movie). reflexivity.
Defined.

(** ** Delivery *)

Lemma split_past (P : entry -> bool) (l1 l2 pre : list entry) e post :
  existsb P l1 = false -> P e = true -> l1 ++ l2 = pre ++ e :: post ->
  exists pre', pre = l1 ++ pre' /\ l2 = pre' ++ e :: post.
Proof.
  revert pre; induction l1 as [|x l1 IH]; intros pre H1 He E; cbn in *.
  - exists pre; auto.
  - apply orb_false_iff in H1 as [Hx H1].
    destruct pre as [|y pre]; cbn in E; injection E as -> E.
    + congruence.
    + destruct (IH pre H1 He E) as (pre' & -> & ->). exists pre'; auto.
Qed.

Lemma existsb_lookups (P : entry -> bool) (t : list entry) :
  (forall e, is_lookup e = true -> P e = false) ->
  forallb is_lookup t = true -> existsb P t = false.
Proof.
  intros HP; induction t as [|e t IH]; cbn; [reflexivity|].
  intros H; apply andb_true_iff in H as [He Ht].
  rewrite (HP e He), (IH Ht); reflexivity.
Qed.

Lemma copy_and_schedule_run (P : Z) (msg : message) (mid : Z) (o : oracle) h s :
  let r := copy_and_schedule P msg mid o h s in
  db_after r = s /\
  (exists e t, emitted r = e :: t /\ copy_sent e = Some (chat_id msg, P, mid)) /\
  delivery (chat_id msg) (emitted r).
Proof.
  unfold copy_and_schedule, try_except, bind, await, do, ret; step.
  answers o;
    (split; [reflexivity|split; [do 2 eexists; split; reflexivity|]]);
    solve [ eapply Delivered; reflexivity
          | eapply WarningFailed; reflexivity
          | eapply CopyFailed; reflexivity ].
Qed.

Lemma Forall2_passes_lookups u channels t :
  Forall2 (lookup_passes u) channels t ->
  forallb is_lookup t = true /\ existsb lookup_fails t = false.
Proof.
  induction 1 as [|ch e chs t (st & -> & Hst) _ [IH1 IH2]]; cbn; [auto|].
  rewrite Hst, IH1, IH2; auto.
Qed.

Lemma send_video_by_id_run P channels as_integer msg video_id (o : oracle) h s :
  let r := send_video_by_id P channels as_integer msg video_id o h s in
  db_after r = s /\
  deep_link_run P channels as_integer msg video_id s (emitted r).
Proof.
  cbv zeta. unfold send_video_by_id, bind.
  rewrite is_user_member_run; step.
  pose proof (gate_false_iff channels (from_user_id msg) o h) as GF.
  pose proof (gate_true_iff channels (from_user_id msg) o h) as GT.
  pose proof (gate_lookups channels (from_user_id msg) o h) as GL.
  destruct (gate channels (from_user_id msg) o h) as [[|] lookups]; cbn [fst snd negb] in *.
  - unfold sql; step.
    destruct (select_message_id_by_id as_integer video_id s) as [mid|] eqn:Sel.
    + match goal with |- context [copy_and_schedule P msg mid o ?h' s] =>
        destruct (copy_and_schedule_run P msg mid o h' s)
          as (Hdb & (e & t' & Et & He) & Hd) end.
      split; [exact Hdb|]. rewrite Et in *; cbn [app].
      eapply LinkFound; eauto. apply GT; reflexivity.
    + unfold await, ret; step. answers o;
        (split; [reflexivity|]; eapply LinkUnknown;
         [reflexivity | apply GT; reflexivity | assumption | reflexivity]).
  - unfold await, ret; step. answers o;
      (split; [reflexivity|]; eapply LinkDenied;
       [reflexivity | assumption | apply GF; reflexivity | reflexivity]).
Qed.

Lemma search_received_movie_name_run P msg (o : oracle) h s :
  let r := search_received_movie_name P msg o h s in
  db_after r = s /\
  search_run P msg s (emitted r).
Proof.
  cbv zeta. unfold search_received_movie_name, bind, sql; step.
  destruct (select_message_id_like (like_pattern (text msg)) s) as [mid|] eqn:Sel.
  - rewrite (app_nil_r h).
    destruct (copy_and_schedule_run P msg mid o h s) as (Hdb & (e & t' & Et & He) & Hd).
    destruct (outcome (copy_and_schedule P msg mid o h s));
      unfold ret; step; (split; [exact Hdb|]); rewrite Et in *; rewrite ?app_nil_r;
      eapply SearchFound; eauto.
  - unfold await, ret; step. answers o;
      (split; [reflexivity|]; eapply SearchNotFound; [reflexivity | assumption | reflexivity]).
Qed.

Lemma lookup_not P e :
  (P = is_copy \/ P = is_create_task) -> is_lookup e = true -> P e = false.
Proof. intros [-> | ->] H; observe e. Qed.

Lemma no_copy_in_lookups t : forallb is_lookup t = true -> existsb is_copy t = false.
Proof. apply existsb_lookups; intros e; apply lookup_not; auto. Qed.

Lemma no_task_in_lookups t : forallb is_lookup t = true -> existsb is_create_task t = false.
Proof. apply existsb_lookups; intros e; apply lookup_not; auto. Qed.

Lemma delivery_no_lookup chat t :
  delivery chat t -> existsb is_lookup t = false /\ existsb lookup_fails t = false.
Proof.
  intros [e1 e2 d -> H1 H2 | e1 e2 e3 sent' d -> H0 H1 H2 | e1 e2 sent w -> H1 ->];
    cbn; [observe e1; observe e2 | observe e2; observe e3; observe e1 | observe e1]; auto.
Qed.

Lemma delivery_copy_failure chat t pre e post d :
  delivery chat t -> t = pre ++ e :: post -> copy_failure e = Some d ->
  (exists report,
      post = [report] /\
      reply_sent report = Some (chat, send_error_text (TelegramError d), None)) /\
  existsb is_create_task t = false.
Proof.
  intros [e1 e2 d' -> H1 H2 | e1 e2 e3 sent' d' -> H0 H1 H2 | e1 e2 sent w -> H1 ->] E He.
  - destruct pre as [|x1 [|x2 [|x3 pre]]]; cbn in E; inversion E; subst.
    + assert (d' = d) as -> by congruence.
      split; [exists e2; auto|]. cbn. observe e; observe e2.
    + observe e.
  - destruct pre as [|x1 [|x2 [|x3 [|x4 pre]]]]; cbn in E; inversion E; subst;
      try congruence; observe e.
  - destruct pre as [|x1 [|x2 [|x3 [|x4 pre]]]]; cbn in E; inversion E; subst;
      try discriminate; observe e.
Qed.

Lemma delivery_warning_failure chat t pre e1 e2 post sent d :
  delivery chat t -> t = pre ++ e1 :: e2 :: post ->
  copy_done e1 = Some sent -> reply_failure e2 = Some (auto_delete_text, d) ->
  (exists report,
      post = [report] /\
      reply_sent report = Some (chat, send_error_text (TelegramError d), None)) /\
  existsb is_create_task t = false.
Proof.
  intros [x1 x2 d' -> H1 H2 | x1 x2 x3 sent0 d' -> H0 H1 H2 | x1 x2 sent' w -> H1 ->] E He1 He2.
  - destruct pre as [|y1 [|y2 [|y3 pre]]]; cbn in E; inversion E; subst; observe e1.
  - destruct pre as [|y1 [|y2 [|y3 [|y4 pre]]]]; cbn in E; inversion E; subst.
    + assert (d' = d) as -> by congruence.
      split; [exists x3; auto|]. cbn. observe e1; observe e2; observe x3.
    + observe e1; observe e2.
  - destruct pre as [|y1 [|y2 [|y3 [|y4 pre]]]]; cbn in E; inversion E; subst;
      try discriminate; observe e1.
Qed.

Lemma deep_link_resolved P channels as_integer msg video_id s t :
  deep_link_run P channels as_integer msg video_id s t -> resolved (chat_id msg) t.
Proof.
  intros [lookups prompt -> Hl Hf Hp | lookups report -> Hl Hs Hr
         | lookups mid e t' -> Hl Hs Hc Hd].
  - exists lookups, [prompt]; eauto 7.
  - exists lookups, [report]. apply Forall2_passes_lookups in Hl as [Hl _]; eauto 7.
  - exists lookups, (e :: t'). apply Forall2_passes_lookups in Hl as [Hl _]; eauto.
Qed.

Lemma search_resolved P msg s t : search_run P msg s t -> resolved (chat_id msg) t.
Proof.
  intros [report -> Hs Hr | mid e t' -> Hs Hc Hd].
  - exists [], [report]; cbn; eauto 7.
  - exists [], (e :: t'); cbn; eauto.
Qed.

Lemma copy_failure_is_copy e d : copy_failure e = Some d -> is_copy e = true.
Proof. intros; observe e. Qed.

Lemma copy_done_is_copy e sent : copy_done e = Some sent -> is_copy e = true.
Proof. intros; observe e. Qed.

Lemma resolved_copy_failure chat t pre e post d :
  resolved chat t -> t = pre ++ e :: post -> copy_failure e = Some d ->
  (exists report,
      post = [report] /\
      reply_sent report = Some (chat, send_error_text (TelegramError d), None)) /\
  existsb is_create_task t = false.
Proof.
  intros (lookups & tail & -> & Hl & Htail) E He.
  destruct (split_past is_copy lookups tail pre e post) as (pre' & -> & Etail);
    [apply no_copy_in_lookups, Hl | eapply copy_failure_is_copy, He | exact E |].
  rewrite existsb_app, (no_task_in_lookups _ Hl); cbn.
  destruct Htail as [Hd | (x & k & -> & Hx)].
  - eapply delivery_copy_failure; eauto.
  - destruct pre' as [|y [|z pre']]; cbn in Etail; inversion Etail; subst. observe e.
Qed.

Lemma resolved_warning_failure chat t pre e1 e2 post sent d :
  resolved chat t -> t = pre ++ e1 :: e2 :: post ->
  copy_done e1 = Some sent -> reply_failure e2 = Some (auto_delete_text, d) ->
  (exists report,
      post = [report] /\
      reply_sent report = Some (chat, send_error_text (TelegramError d), None)) /\
  existsb is_create_task t = false.
Proof.
  intros (lookups & tail & -> & Hl & Htail) E He1 He2.
  destruct (split_past is_copy lookups tail pre e1 (e2 :: post)) as (pre' & -> & Etail);
    [apply no_copy_in_lookups, Hl | eapply copy_done_is_copy, He1 | exact E |].
  rewrite existsb_app, (no_task_in_lookups _ Hl); cbn.
  destruct Htail as [Hd | (x & k & -> & Hx)].
  - eapply delivery_warning_failure; eauto.
  - destruct pre' as [|y [|z pre']]; cbn in Etail; inversion Etail; subst.
Qed.

(** C5.  On the deep-link path and on the search path alike: whenever
    [copy_message] raises, with detail [d], the next and last call of the
    handler is a reply to the requesting chat whose text carries [d], and
    the run creates no task at all. *)
Theorem copy_failure_is_reported P channels as_integer msg video_id (o : oracle) h s t
        pre e post d :
  t = emitted (send_video_by_id P channels as_integer msg video_id o h s) \/
  t = emitted (search_received_movie_name P msg o h s) ->
  t = pre ++ e :: post ->
  copy_failure e = Some d ->
  (exists report,
      post = [report] /\
      reply_sent report = Some (chat_id msg, send_error_text (TelegramError d), None)) /\
  send_error_text (TelegramError d)
  = py "Sorry, an error occurred while sending the file: " ++ d /\
  existsb is_create_task t = false.
Proof.
  intros Ht E He.
  assert (resolved (chat_id msg) t) as R.
  { destruct Ht as [-> | ->].
    - eapply deep_link_resolved, send_video_by_id_run.
    - eapply search_resolved, search_received_movie_name_run. }
  destruct (resolved_copy_failure _ _ _ _ _ _ R E He) as [Hr Hn].
  repeat split; auto.
Qed.

(** C10.  On both paths: when [copy_message] returned and the warning
    notice then raises, with detail [d], the next and last call of the
    handler is the error reply carrying [d], and the run creates no task:
    the copied message is not scheduled for deletion. *)
Theorem warning_failure_schedules_nothing P channels as_integer msg video_id (o : oracle)
        h s t pre e1 e2 post sent d :
  t = emitted (send_video_by_id P channels as_integer msg video_id o h s) \/
  t = emitted (search_received_movie_name P msg o h s) ->
  t = pre ++ e1 :: e2 :: post ->
  copy_done e1 = Some sent ->
  reply_failure e2 = Some (auto_delete_text, d) ->
  (exists report,
      post = [report] /\
      reply_sent report = Some (chat_id msg, send_error_text (TelegramError d), None)) /\
  existsb is_create_task t = false.
Proof.
  intros Ht E He1 He2.
  assert (resolved (chat_id msg) t) as R.
  { destruct Ht as [-> | ->].
    - eapply deep_link_resolved, send_video_by_id_run.
    - eapply search_resolved, search_received_movie_name_run. }
  exact (resolved_warning_failure _ _ _ _ _ _ _ _ R E He1 He2).
Qed.

Lemma copy_failure_is_reported_witness :
  (exists report,
      [sample_report (py "Forbidden: bot was blocked by the user")] = [report] /\
      reply_sent report
      = Some (70%Z,
              send_error_text (TelegramError (py "Forbidden: bot was blocked by the user")),
              None)) /\
  send_error_text (TelegramError (py "Forbidden: bot was blocked by the user"))
  = py "Sorry, an error occurred while sending the file: "
    ++ py "Forbidden: bot was blocked by the user" /\
  existsb is_create_task
    (emitted (send_video_by_id 0 lexobit decimal alice (py "5") copy_raises [] one_movie))
  = false.
Proof.
  apply (copy_failure_is_reported 0 lexobit decimal alice (py "5") copy_raises [] one_movie
           (emitted (send_video_by_id 0 lexobit decimal alice (py "5") copy_raises []
                                      one_movie))
           [sample_lookup] sample_failed_copy
           [sample_report (py "Forbidden: bot was blocked by the user")]
           (py "Forbidden: bot was blocked by the user")).
  - left; reflexivity.
  - vm_compute; reflexivity.
  - reflexivity.
Defined.

Lemma warning_failure_schedules_nothing_witness :
  (exists report,
      [sample_report (py "Timed out")] = [report] /\
      reply_sent report
      = Some (70%Z, send_error_text (TelegramError (py "Timed out")), None)) /\
  existsb is_create_task
    (emitted (search_received_movie_name 0 alice warning_raises [] one_movie))
  = false.
Proof.
  apply (warning_failure_schedules_nothing 0 lexobit decimal alice (py "5") warning_raises
           [] one_movie
           (emitted (search_received_movie_name 0 alice warning_raises [] one_movie))
           [] (Called (copy_message 70 0 10) (Ok 1000%Z)) sample_failed_warning
           [sample_report (py "Timed out")] 1000%Z (py "Timed out")).
  - right; reflexivity.
  - vm_compute; reflexivity.
  - reflexivity.
  - reflexivity.
Defined.

(** ** The deep-link path *)

Lemma start_deep_link P channels as_integer msg video_id args (o : oracle) h s :
  let r := start P channels as_integer msg (video_id :: args) o h s in
  let r' := send_video_by_id P channels as_integer msg video_id o h
              (insert_or_ignore_user (from_user_id msg) s) in
  outcome r = outcome r' /\ db_after r = db_after r' /\ emitted r = emitted r'.
Proof.
  cbv zeta. unfold start, bind, try_except, sql; step.
  rewrite (app_nil_r h). auto.
Qed.

Lemma delivery_head_only chat e t :
  delivery chat (e :: t) -> existsb is_copy t = false.
Proof.
  intros [e1 e2 d E H1 H2 | e1 e2 e3 sent d E H0 H1 H2 | e1 e2 sent w E H1 ->];
    inversion E; subst; cbn; [observe e2 | observe e2; observe e3 | reflexivity].
Qed.

Lemma join_buttons_per_channel channels :
  Forall2 (fun channel row =>
             row = [InlineKeyboardButton (py "Join " ++ channel)
                                         (py "https://t.me/" ++ lstrip_at channel)])
          channels (join_buttons channels).
Proof. induction channels; cbn; constructor; auto. Qed.

(** C7.  A deep-link request ([/start] with an argument) from a user for
    whom a lookup of the gate fails: the handler's calls are the lookups
    followed by exactly one reply, the join prompt, whose keyboard has one
    row with one join button for each required channel; nothing is copied
    and no task is created. *)
Theorem deep_link_denied_gets_join_prompt P channels as_integer msg video_id args
        (o : oracle) h s :
  let r := start P channels as_integer msg (video_id :: args) o h s in
  existsb lookup_fails (emitted r) = true ->
  (exists lookups prompt,
      emitted r = lookups ++ [prompt] /\
      forallb is_lookup lookups = true /\
      reply_sent prompt
      = Some (chat_id msg, join_to_get_text,
              Some (InlineKeyboardMarkup (join_buttons channels)))) /\
  Forall2 (fun channel row =>
             row = [InlineKeyboardButton (py "Join " ++ channel)
                                         (py "https://t.me/" ++ lstrip_at channel)])
          channels (join_buttons channels) /\
  existsb is_copy (emitted r) = false /\
  existsb is_create_task (emitted r) = false.
Proof.
  cbv zeta.
  destruct (start_deep_link P channels as_integer msg video_id args o h s) as (_ & _ & ->).
  destruct (send_video_by_id_run P channels as_integer msg video_id o h
              (insert_or_ignore_user (from_user_id msg) s)) as [_ R].
  destruct R as [lookups prompt -> Hl Hf Hp | lookups report -> Hl Hs Hr
                | lookups mid e t' -> Hl Hs Hc Hd]; intros F.
  - split; [exists lookups, prompt; auto|].
    split; [apply join_buttons_per_channel|].
    rewrite !existsb_app, no_copy_in_lookups, no_task_in_lookups by assumption.
    cbn; observe prompt; auto.
  - apply Forall2_passes_lookups in Hl as [_ Hl].
    rewrite existsb_app, Hl in F; cbn in F. observe report.
  - apply Forall2_passes_lookups in Hl as [_ Hl].
    apply delivery_no_lookup in Hd as [_ Hd].
    rewrite existsb_app, Hl, Hd in F. discriminate.
Qed.

Lemma deep_link_denied_gets_join_prompt_witness :
  (exists lookups prompt,
      emitted (start 0 lexobit decimal alice [py "5"] not_joined [] one_movie)
      = lookups ++ [prompt] /\
      forallb is_lookup lookups = true /\
      reply_sent prompt
      = Some (70%Z, join_to_get_text, Some (InlineKeyboardMarkup (join_buttons lexobit)))) /\
  Forall2 (fun channel row =>
             row = [InlineKeyboardButton (py "Join " ++ channel)
                                         (py "https://t.me/" ++ lstrip_at channel)])
          lexobit (join_buttons lexobit) /\
  existsb is_copy (emitted (start 0 lexobit decimal alice [py "5"] not_joined [] one_movie))
  = false /\
  existsb is_create_task
    (emitted (start 0 lexobit decimal alice [py "5"] not_joined [] one_movie))
  = false.
Proof.
  apply (deep_link_denied_gets_join_prompt 0 lexobit decimal alice (py "5") [] not_joined []
           one_movie).
  vm_compute; reflexivity.
Defined.

Lemma select_by_id_some as_integer video_id s mid :
  select_message_id_by_id as_integer video_id s = Some mid ->
  exists n row,
    as_integer video_id = Some n /\ In row (videos s) /\ id row = n /\ message_id row = mid.
Proof.
  unfold select_message_id_by_id.
  destruct (as_integer video_id) as [n|]; [|discriminate].
  destruct (find _ (videos s)) as [row|] eqn:F; [|discriminate].
  intros [= <-]. apply find_some in F as [Hin Hid].
  exists n, row. apply Z.eqb_eq in Hid. auto.
Qed.

Lemma select_by_id_none as_integer video_id s :
  select_message_id_by_id as_integer video_id s = None <->
  (forall row, In row (videos s) -> as_integer video_id <> Some (id row)).
Proof.
  unfold select_message_id_by_id. split.
  - destruct (as_integer video_id) as [n|]; [|intros _ row _; discriminate].
    destruct (find _ (videos s)) as [row|] eqn:F; [discriminate|].
    intros _ row Hin [= ->].
    apply (find_none _ _ F) in Hin. rewrite Z.eqb_refl in Hin. discriminate.
  - intros H. destruct (as_integer video_id) as [n|]; [|reflexivity].
    destruct (find _ (videos s)) as [row|] eqn:F; [|reflexivity].
    apply find_some in F as [Hin Hid]. apply Z.eqb_eq in Hid.
    destruct (H row Hin). congruence.
Qed.

(** C9.  Resolution by identifier in [send_video_by_id], where [as_integer]
    is the integer the store reads from the text of the argument.
    - Whatever is copied is the message of a record whose [id] is exactly
      that integer.
    - When the gate passes and no record has that id (or the text denotes
      no integer), the only reply is the invalid-or-not-found report and
      nothing is copied.
    - When the gate passes and a record has that id, the message of such a
      record is copied to the requesting chat. *)
Theorem resolve_by_id_is_exact P channels as_integer msg video_id (o : oracle) h s :
  let r := send_video_by_id P channels as_integer msg video_id o h s in
  (forall e, In e (emitted r) -> is_copy e = true ->
     exists n row,
       as_integer video_id = Some n /\ In row (videos s) /\ id row = n /\
       copy_sent e = Some (chat_id msg, P, message_id row)) /\
  (existsb lookup_fails (emitted r) = false ->
   (forall row, In row (videos s) -> as_integer video_id <> Some (id row)) ->
   existsb is_copy (emitted r) = false /\
   exists lookups report,
     emitted r = lookups ++ [report] /\
     forallb is_lookup lookups = true /\
     reply_sent report = Some (chat_id msg, invalid_link_text, None)) /\
  (existsb lookup_fails (emitted r) = false ->
   forall row, In row (videos s) -> as_integer video_id = Some (id row) ->
   exists lookups e rest row',
     emitted r = lookups ++ e :: rest /\
     forallb is_lookup lookups = true /\
     In row' (videos s) /\ id row' = id row /\
     copy_sent e = Some (chat_id msg, P, message_id row')).
Proof.
  cbv zeta.
  destruct (send_video_by_id_run P channels as_integer msg video_id o h s) as [_ R].
  destruct R as [lookups prompt -> Hl Hf Hp | lookups report -> Hl Hs Hr
                | lookups mid e t' -> Hl Hs Hc Hd].
  - split; [|split].
    + intros e Hin He. apply in_app_or in Hin as [Hin | [<- | []]].
      * pose proof (no_copy_in_lookups _ Hl) as N.
        rewrite <- not_true_iff_false, existsb_exists in N. destruct N; eauto.
      * observe prompt.
    + intros F. rewrite existsb_app, Hf in F. discriminate.
    + intros F. rewrite existsb_app, Hf in F. discriminate.
  - apply Forall2_passes_lookups in Hl as [Hl _].
    assert (existsb is_copy (lookups ++ [report]) = false) as N.
    { rewrite existsb_app, (no_copy_in_lookups _ Hl). cbn. observe report. }
    split; [|split].
    + intros e Hin He.
      rewrite <- not_true_iff_false, existsb_exists in N. destruct N; eauto.
    + intros _ _. split; [exact N|]. exists lookups, report; auto.
    + intros _ row Hin Hrow.
      destruct (proj1 (select_by_id_none _ _ _) Hs row Hin Hrow).
  - apply Forall2_passes_lookups in Hl as [Hl _].
    destruct (select_by_id_some _ _ _ _ Hs) as (n & row & Hn & Hin & Hid & Hmid).
    split; [|split].
    + intros e' Hin' He'. exists n, row. repeat split; auto.
      apply in_app_or in Hin' as [Hin' | [<- | Hin']].
      * pose proof (no_copy_in_lookups _ Hl) as N.
        rewrite <- not_true_iff_false, existsb_exists in N. destruct N; eauto.
      * rewrite Hmid; exact Hc.
      * pose proof (delivery_head_only _ _ _ Hd) as N.
        rewrite <- not_true_iff_false, existsb_exists in N. destruct N; eauto.
    + intros _ Habsent. destruct (Habsent row Hin). congruence.
    + intros _ row0 Hin0 Hrow0. exists lookups, e, t', row.
      repeat split; auto; [congruence | rewrite Hmid; exact Hc].
Qed.

(** With id 5 present and id 6 absent: [/start 5] copies the message of
    record 5, [/start 6] reports that the link is invalid or not found. *)
Lemma resolve_by_id_is_exact_witness :
  (existsb is_copy
     (emitted (send_video_by_id 0 lexobit decimal alice (py "6") all_fine [] one_movie))
   = false /\
   exists lookups report,
     emitted (send_video_by_id 0 lexobit decimal alice (py "6") all_fine [] one_movie)
     = lookups ++ [report] /\
     forallb is_lookup lookups = true /\
     reply_sent report = Some (70%Z, invalid_link_text, None)) /\
  (exists lookups e rest row',
     emitted (send_video_by_id 0 lexobit decimal alice (py "5") all_fine [] one_movie)
     = lookups ++ e :: rest /\
     forallb is_lookup lookups = true /\
     In row' (videos one_movie) /\ id row' = 5%Z /\
     copy_sent e = Some (70%Z, 0%Z, message_id row')).
Proof.
  split.
  - apply (resolve_by_id_is_exact 0 lexobit decimal alice (py "6") all_fine [] one_movie).
    + vm_compute; reflexivity.
    + intros row [<- | []]. vm_compute. discriminate.
  - apply (resolve_by_id_is_exact 0 lexobit decimal alice (py "5") all_fine [] one_movie
             ) with (row := Row 5 (py "Matrix") 10).
    + vm_compute; reflexivity.
    + left; reflexivity.
    + vm_compute; reflexivity.
Defined.

(** ** Where membership is checked *)

Lemma ask_for_movie_name_run channels msg (o : oracle) h s :
  let r := ask_for_movie_name channels msg o h s in
  exists lookups prompt,
    emitted r = lookups ++ [prompt] /\
    forallb is_lookup lookups = true /\
    ((existsb lookup_fails lookups = true /\
      reply_sent prompt
      = Some (chat_id msg, join_to_use_text,
              Some (InlineKeyboardMarkup (join_buttons channels))) /\
      outcome r <> inl GET_MOVIE_NAME) \/
     (Forall2 (lookup_passes (from_user_id msg)) channels lookups /\
      reply_sent prompt = Some (chat_id msg, ask_name_text, None))).
Proof.
  cbv zeta. unfold ask_for_movie_name, bind.
  rewrite is_user_member_run; step.
  pose proof (gate_false_iff channels (from_user_id msg) o h) as GF.
  pose proof (gate_true_iff channels (from_user_id msg) o h) as GT.
  pose proof (gate_lookups channels (from_user_id msg) o h) as GL.
  destruct (gate channels (from_user_id msg) o h) as [[|] lookups]; cbn [fst snd negb] in *;
    unfold await, ret; step; answers o; do 2 eexists;
    (split; [reflexivity|]); (split; [assumption|]).
  1,2: right; split; [apply GT|]; reflexivity.
  1,2: left; split; [apply GF; reflexivity|]; split; [reflexivity|]; discriminate.
Qed.

(** A user who was a member when the conversation was entered and has left
    since: the query step still copies the matching message, and makes no
    membership lookup. *)
Lemma search_step_copies_unchecked :
  outcome (ask_for_movie_name lexobit alice all_fine [] one_movie) = inl GET_MOVIE_NAME /\
  let r := search_received_movie_name 0 alice not_joined [] one_movie in
  existsb is_copy (emitted r) = true /\ existsb is_lookup (emitted r) = false.
Proof. vm_compute. repeat split; reflexivity. Qed.

(** C8, as the code has it.  Nothing remembers a membership verdict: every
    evaluation of the gate looks the user up again.
    - On the deep-link path, a run of [send_video_by_id] that copies anything
      has first looked the user up in every required channel and got a
      joined status each time.
    - On the search path the check is made by the entry step:
      [ask_for_movie_name] returns [GET_MOVIE_NAME] only after such lookups in
      that step.
    - The query step [search_received_movie_name] performs no membership
      lookup; it copies the first matching message, if there is one. *)
Theorem membership_checked_at_gate P channels as_integer msg video_id (o : oracle) h s :
  (let r := send_video_by_id P channels as_integer msg video_id o h s in
   existsb is_copy (emitted r) = true ->
   exists lookups rest,
     emitted r = lookups ++ rest /\
     Forall2 (lookup_passes (from_user_id msg)) channels lookups /\
     existsb is_copy lookups = false) /\
  (let r := ask_for_movie_name channels msg o h s in
   outcome r = inl GET_MOVIE_NAME ->
   exists lookups prompt,
     emitted r = lookups ++ [prompt] /\
     Forall2 (lookup_passes (from_user_id msg)) channels lookups /\
     reply_sent prompt = Some (chat_id msg, ask_name_text, None)) /\
  (let r := search_received_movie_name P msg o h s in
   existsb is_lookup (emitted r) = false /\
   (existsb is_copy (emitted r) = true <->
    select_message_id_like (like_pattern (text msg)) s <> None)).
Proof.
  cbv zeta. split; [|split].
  - destruct (send_video_by_id_run P channels as_integer msg video_id o h s) as [_ R].
    destruct R as [lookups prompt -> Hl Hf Hp | lookups report -> Hl Hs Hr
                  | lookups mid e t' -> Hl Hs Hc Hd]; intros C.
    + rewrite existsb_app, (no_copy_in_lookups _ Hl) in C. cbn in C. observe prompt.
    + exists lookups, [report]. repeat split; auto.
      apply no_copy_in_lookups. apply Forall2_passes_lookups in Hl; tauto.
    + exists lookups, (e :: t'). repeat split; auto.
      apply no_copy_in_lookups. apply Forall2_passes_lookups in Hl; tauto.
  - destruct (ask_for_movie_name_run channels msg o h s)
      as (lookups & prompt & -> & Hl & [(Hf & Hp & Hn) | (Hpass & Hp)]); intros Ho.
    + contradiction.
    + exists lookups, prompt; auto.
  - destruct (search_received_movie_name_run P msg o h s) as [_ R].
    destruct R as [report -> Hs Hr | mid e t' -> Hs Hc Hd].
    + cbn. rewrite Hs.
      observe report; (split; [reflexivity|]; split; [discriminate|congruence]).
    + rewrite Hs. apply delivery_no_lookup in Hd as [Hd _]. split; [exact Hd|].
      cbn. observe e; (split; [discriminate|reflexivity]).
Qed.

Lemma membership_checked_at_gate_witness :
  (exists lookups rest,
     emitted (send_video_by_id 0 lexobit decimal alice (py "5") all_fine [] one_movie)
     = lookups ++ rest /\
     Forall2 (lookup_passes 7) lexobit lookups /\
     existsb is_copy lookups = false) /\
  (exists lookups prompt,
     emitted (ask_for_movie_name lexobit alice all_fine [] one_movie) = lookups ++ [prompt] /\
     Forall2 (lookup_passes 7) lexobit lookups /\
     reply_sent prompt = Some (70%Z, ask_name_text, None)).
Proof.
  split.
  - apply (membership_checked_at_gate 0 lexobit decimal alice (py "5") all_fine [] one_movie).
    vm_compute; reflexivity.
  - apply (membership_checked_at_gate 0 lexobit decimal alice (py "5") all_fine [] one_movie).
    vm_compute; reflexivity.
Defined.

(** ** Cleanup *)

Lemma for_each_cons {X A} (x : X) xs (body : X -> M (flow A)) after (o : oracle) h s :
  for_each (x :: xs) body after o h s
  = let r1 := body x o h s in
    match outcome r1 with
    | inl Continue =>
        let r' := for_each xs body after o (h ++ emitted r1) (db_after r1) in
        Ran (outcome r') (db_after r') (emitted r1 ++ emitted r')
    | inl (Return a) => Ran (inl a) (db_after r1) (emitted r1 ++ [])
    | inr e => Ran (inr e) (db_after r1) (emitted r1)
    end.
Proof.
  cbn [for_each]. unfold bind. cbv zeta.
  destruct (outcome (body x o h s)) as [[|a]|e]; reflexivity.
Qed.

Lemma delete_one_run chat m (o : oracle) h s :
  delete_one chat m o h s
  = Ran (inl Continue) s
        (Called (delete_message chat m) (o h bool (delete_message chat m))
         :: match o h bool (delete_message chat m) with
            | Ok _ => []
            | Failed d => [Did (print (could_not_delete_line m (TelegramError d)))]
            end).
Proof.
  unfold delete_one, try_except, bind, await, do, ret; step.
  destruct (o h bool (delete_message chat m)); reflexivity.
Qed.

Lemma cleanup_loop chat ids (o : oracle) h s :
  let r := for_each ids (delete_one chat) (ret tt) o h s in
  outcome r = inl tt /\
  db_after r = s /\
  existsb is_sleep (emitted r) = false /\
  deletions (emitted r) = map (pair chat) ids /\
  (forall pre e post mid d,
      emitted r = pre ++ e :: post -> delete_failure e = Some (mid, d) ->
      exists post',
        post = Did (print (could_not_delete_line mid (TelegramError d))) :: post').
Proof.
  cbv zeta. revert h; induction ids as [|m ids IH]; intros h.
  - cbn. repeat split; auto. intros [|? ?] ? ? ? ? E; discriminate E.
  - rewrite for_each_cons, delete_one_run. cbv zeta. step.
    match goal with |- context [for_each ids _ _ o ?h' s] =>
      destruct (IH h') as (Ho & Hb & Hs & Hd & Hf);
      generalize dependent (for_each ids (delete_one chat) (ret tt) o h' s); intros r
    end; intros Ho Hb Hs Hd Hf.
    split; [exact Ho|]. split; [exact Hb|].
    destruct (o h bool (delete_message chat m)) as [b|d0]; cbn [app].
    + split; [exact Hs|]. split; [unfold deletions in *; cbn; rewrite Hd; reflexivity|].
      intros [|x pre] e post mid d E He; cbn in E; inversion E; subst.
      * discriminate He.
      * eapply Hf; eauto.
    + split; [exact Hs|]. split; [unfold deletions in *; cbn; rewrite Hd; reflexivity|].
      intros [|x [|y pre]] e post mid d E He; cbn in E; inversion E; subst.
      * injection He as <- <-. eexists; reflexivity.
      * discriminate He.
      * eapply Hf; eauto.
Qed.

(** C6.  For every chat, list of message ids and delay, and whatever the
    transport answers: [delete_messages_after_delay] returns normally; it
    first sleeps for the delay, once; its [delete_message] calls are exactly
    one per id of the list, in the order of the list, in the given chat,
    whichever of them raise; and each one that raises is followed at once by
    the printed line naming the message id and the error. *)
Theorem cleanup_attempts_every_id chat ids delay (o : oracle) h s :
  let r := delete_messages_after_delay chat ids delay o h s in
  outcome r = inl tt /\
  db_after r = s /\
  exists t,
    emitted r = Did (sleep delay) :: t /\
    existsb is_sleep t = false /\
    deletions t = map (pair chat) ids /\
    (forall pre e post mid d,
        t = pre ++ e :: post -> delete_failure e = Some (mid, d) ->
        exists post',
          post = Did (print (could_not_delete_line mid (TelegramError d))) :: post').
Proof.
  cbv zeta. unfold delete_messages_after_delay, bind, do; step.
  destruct (cleanup_loop chat ids o (h ++ [Did (sleep delay)]) s) as (Ho & Hb & Hs & Hd & Hf).
  split; [exact Ho|]. split; [exact Hb|].
  eexists; split; [reflexivity|]. auto.
Qed.

(** The task made by [create_task] for a delivery of messages 100 and 101:
    deleting 100 raises, 101 is deleted all the same. *)
Lemma cleanup_attempts_every_id_witness :
  let r := run_task (DeleteMessagesAfterDelay 70 [100%Z; 101%Z] 30) delete_100_raises []
                    one_movie in
  outcome r = inl tt /\
  emitted r
  = [Did (sleep 30);
     Called (delete_message 70 100) (Failed (py "Message to delete not found"));
     Did (print (could_not_delete_line 100
                   (TelegramError (py "Message to delete not found"))));
     Called (delete_message 70 101) (Ok true)] /\
  deletions (emitted r) = [(70%Z, 100%Z); (70%Z, 101%Z)].
Proof.
  pose proof (cleanup_attempts_every_id 70 [100%Z; 101%Z] 30 delete_100_raises [] one_movie)
    as (Ho & _).
  split; [exact Ho|]. vm_compute. split; reflexivity.
Defined.

(** ** Substrings and [LIKE] *)

Lemma starts_with_prefix q s : starts_with q s = true <-> exists b, s = q ++ b.
Proof.
  revert s; induction q as [|x q IH]; intros s; cbn.
  - split; eauto.
  - destruct s as [|y s]; [split; [discriminate | intros [b E]; discriminate E]|].
    rewrite andb_true_iff, N.eqb_eq, IH. split.
    + intros [-> [b ->]]. eauto.
    + intros [b E]. injection E as -> ->. eauto.
Qed.

Lemma contains_substring q s : contains q s = true <-> substring q s.
Proof.
  unfold substring. induction s as [|y s IH]; cbn [contains];
    rewrite orb_true_iff, starts_with_prefix.
  - split.
    + intros [[b E] | F]; [exists [], b; exact E | discriminate F].
    + intros ([|x a] & b & E); [left; eauto | discriminate E].
  - rewrite IH. split.
    + intros [[b E] | (a & b & ->)]; [exists [], b; exact E | exists (y :: a), b; reflexivity].
    + intros ([|x a] & b & E); [left; eauto|].
      injection E as -> ->. right; eauto.
Qed.

Lemma like_percent p s :
  like (percent :: p) s
  = like p s || match s with [] => false | _ :: s' => like (percent :: p) s' end.
Proof. destruct s; reflexivity. Qed.

Lemma like_char_cons c p d s :
  N.eqb c percent = false ->
  like (c :: p) (d :: s)
  = if N.eqb c underscore then like p s else like_char c d && like p s.
Proof. intros H. change (like (c :: p) (d :: s)) with
    (if N.eqb c percent
     then like (percent :: p) (d :: s)
     else if N.eqb c underscore then like p s else like_char c d && like p s).
  rewrite H; reflexivity.
Qed.

Lemma like_char_nil c p : N.eqb c percent = false -> like (c :: p) [] = false.
Proof.
  intros H. change (like (c :: p) []) with
    (if N.eqb c percent then like (percent :: p) [] else false).
  rewrite H; reflexivity.
Qed.

Lemma like_percent_iff p s :
  like (percent :: p) s = true <-> exists a s', s = a ++ s' /\ like p s' = true.
Proof.
  induction s as [|x s IH]; rewrite like_percent, orb_true_iff.
  - split.
    + intros [H | H]; [exists [], []; auto | discriminate H].
    + intros ([|? ?] & s' & E & H); [|discriminate E]. cbn in E; subst s'. auto.
  - rewrite IH. split.
    + intros [H | (a & s' & -> & H)]; [exists [], (x :: s); auto | exists (x :: a), s'; auto].
    + intros ([|y a] & s' & E & H); cbn in E.
      * subst s'. auto.
      * injection E as -> ->. right; eauto.
Qed.

Lemma like_char_refl c : like_char c c = true.
Proof. apply N.eqb_refl. Qed.

(** A pattern ending in [%] matches every text it is a prefix of, its own
    wildcards included. *)
Lemma like_own_prefix q b : like (q ++ [percent]) (q ++ b) = true.
Proof.
  induction q as [|c q IH]; cbn [app].
  - apply like_percent_iff. exists b, []. rewrite app_nil_r. auto.
  - destruct (N.eqb c percent) eqn:C.
    + apply N.eqb_eq in C; subst c.
      apply like_percent_iff. exists [percent], (q ++ b). auto.
    + rewrite like_char_cons by assumption.
      destruct (N.eqb c underscore); [exact IH|].
      rewrite like_char_refl, IH; reflexivity.
Qed.

(** Every name that contains the query is matched by [%query%]. *)
Lemma like_contains q s : substring q s -> like (like_pattern q) s = true.
Proof.
  intros (a & b & ->). apply like_percent_iff.
  exists a, (q ++ b). split; [reflexivity | apply like_own_prefix].
Qed.

(** For a query without wildcards, [%query%] matches exactly the names that
    contain the query up to the case of ASCII letters. *)
Lemma like_plain_prefix q s :
  forallb (fun c => negb (is_wildcard c)) q = true ->
  like (q ++ [percent]) s = true
  <-> exists m b, s = m ++ b /\ map tolower m = map tolower q.
Proof.
  revert s; induction q as [|c q IH]; intros s Hq; cbn [app].
  - split.
    + intros _. exists [], s; auto.
    + intros _. apply like_percent_iff. exists s, []. rewrite app_nil_r; auto.
  - cbn in Hq. apply andb_true_iff in Hq as [Hc Hq].
    unfold is_wildcard in Hc. apply negb_true_iff, orb_false_iff in Hc as [Cp Cu].
    destruct s as [|d s].
    + rewrite like_char_nil by assumption. split; [discriminate|].
      intros ([|? ?] & b & E & H); discriminate.
    + rewrite like_char_cons, Cu, andb_true_iff, (IH s Hq) by assumption.
      unfold like_char; rewrite N.eqb_eq. split.
      * intros [Hcd (m & b & -> & Hm)]. exists (d :: m), b. cbn. split; congruence.
      * intros ([|d' m] & b & E & H); [discriminate H|].
        cbn in E, H. injection E as -> ->. injection H as H1 H2. split; eauto.
Qed.

Lemma like_plain q s :
  forallb (fun c => negb (is_wildcard c)) q = true ->
  like (like_pattern q) s = true <-> caseless_substring q s.
Proof.
  intros Hq. unfold like_pattern, caseless_substring. rewrite like_percent_iff. split.
  - intros (a & s' & -> & H). apply (like_plain_prefix q s' Hq) in H as (m & b & -> & Hm).
    eauto.
  - intros (a & m & b & -> & Hm). exists a, (m ++ b). split; [reflexivity|].
    apply (like_plain_prefix q _ Hq). eauto.
Qed.

(** ** Resolution by name *)

Lemma find_first {A} (f : A -> bool) (l before : list A) x after :
  l = before ++ x :: after -> f x = true ->
  (forall y, In y before -> f y = false) ->
  find f l = Some x.
Proof.
  intros -> Hx. induction before as [|y before IH]; intros Hb; cbn.
  - rewrite Hx; reflexivity.
  - rewrite (Hb y) by (left; reflexivity). apply IH. intros z Hz. apply Hb; right; exact Hz.
Qed.

Lemma find_nothing {A} (f : A -> bool) (l : list A) :
  (forall y, In y l -> f y = false) -> find f l = None.
Proof.
  induction l as [|y l IH]; intros H; cbn; [reflexivity|].
  rewrite (H y) by (left; reflexivity). apply IH. intros z Hz. apply H; right; exact Hz.
Qed.

(** The search of the specification and the search of the code part on a
    query that differs from a stored name in case only: no stored name
    contains ["matrix"], yet the message of ["Matrix"] is copied. *)
Lemma search_is_not_case_sensitive :
  (forall row, In row (videos one_movie) -> ~ substring (py "matrix") (name row)) /\
  findByNameSubstring_spec (py "matrix") one_movie = None /\
  exists e t,
    emitted (search_received_movie_name 0 alice all_fine [] one_movie) = e :: t /\
    copy_sent e = Some (70%Z, 0%Z, 10%Z).
Proof.
  split; [|split].
  - intros row [<- | []] H. apply contains_substring in H. vm_compute in H. discriminate.
  - reflexivity.
  - do 2 eexists. split; vm_compute; reflexivity.
Qed.

(** C2, as the code has it.  [search_received_movie_name] matches the
    stored names against the pattern [%query%] with SQLite's [LIKE].
    - The first row, in store order, whose name matches is the one whose
      message is copied, and no second message is copied.
    - When no stored name matches, nothing is copied and the not-found text
      is the only reply.
    - [%query%] matches every name that contains the query; for a query
      without [%] and [_] it matches exactly the names that contain the query
      up to the case of ASCII letters. *)
Theorem search_returns_first_like_match P msg (o : oracle) h s :
  let r := search_received_movie_name P msg o h s in
  let pattern := like_pattern (text msg) in
  (forall before row after,
      videos s = before ++ row :: after ->
      like pattern (name row) = true ->
      (forall row', In row' before -> like pattern (name row') = false) ->
      exists e t,
        emitted r = e :: t /\
        copy_sent e = Some (chat_id msg, P, message_id row) /\
        existsb is_copy t = false) /\
  ((forall row, In row (videos s) -> like pattern (name row) = false) ->
   existsb is_copy (emitted r) = false /\
   exists report,
     emitted r = [report] /\
     reply_sent report = Some (chat_id msg, movie_not_found_text, None)) /\
  (forall n, substring (text msg) n -> like pattern n = true) /\
  (forallb (fun c => negb (is_wildcard c)) (text msg) = true ->
   forall n, like pattern n = true <-> caseless_substring (text msg) n).
Proof.
  cbv zeta.
  destruct (search_received_movie_name_run P msg o h s) as [_ R].
  split; [|split; [|split]].
  - intros before row after Ev Hrow Hbefore.
    assert (select_message_id_like (like_pattern (text msg)) s = Some (message_id row)) as Sel.
    { unfold select_message_id_like.
      rewrite (find_first (fun r => like (like_pattern (text msg)) (name r))
                 (videos s) before row after Ev Hrow Hbefore).
      reflexivity. }
    destruct R as [report -> Hs Hr | mid e t' -> Hs Hc Hd]; [congruence|].
    exists e, t'. split; [reflexivity|]. split; [congruence|].
    eapply delivery_head_only; eauto.
  - intros Hnone.
    assert (select_message_id_like (like_pattern (text msg)) s = None) as Sel.
    { unfold select_message_id_like.
      rewrite (find_nothing (fun r => like (like_pattern (text msg)) (name r)) (videos s) Hnone).
      reflexivity. }
    destruct R as [report -> Hs Hr | mid e t' -> Hs Hc Hd]; [|congruence].
    split; [cbn; observe report|]. exists report; auto.
  - intros n. apply like_contains.
  - intros Hq n. apply like_plain, Hq.
Qed.

Lemma search_returns_first_like_match_witness :
  exists e t,
    emitted (search_received_movie_name 0 alice all_fine [] one_movie) = e :: t /\
    copy_sent e = Some (70%Z, 0%Z, 10%Z) /\
    existsb is_copy t = false.
Proof.
  apply (search_returns_first_like_match 0 alice all_fine [] one_movie)
    with (before := []) (row := Row 5 (py "Matrix") 10) (after := []).
  - reflexivity.
  - vm_compute; reflexivity.
  - intros row' [].
Defined.

(** ** Deletion by name *)

Lemma texts_differ q : deleted_text q <> delete_not_found_text.
Proof. intros H. apply (f_equal (@hd_error char)) in H. cbv in H. discriminate H. Qed.

(** Two requests of the administrator on which the deletion of the
    specification and the deletion of the code part.  [/delvideo matrix]: no
    stored name contains ["matrix"], yet the record of ["Matrix"] is deleted
    and success is reported.  [/delvideo] alone: every name contains the
    empty query, yet nothing is deleted and the usage text is the reply. *)
Lemma delete_is_not_by_substring :
  ((forall row, In row (videos one_movie) -> ~ substring (py "matrix") (name row)) /\
   deleteByNameSubstring_spec (py "matrix") one_movie = (false, one_movie) /\
   let r := delete_video 7 alice [py "matrix"] all_fine [] one_movie in
   videos (db_after r) = [] /\
   exists e, emitted r = [e] /\
             reply_sent e = Some (70%Z, deleted_text (py "matrix"), None)) /\
  ((forall row, In row (videos one_movie) -> substring [] (name row)) /\
   let r := delete_video 7 alice [] all_fine [] one_movie in
   db_after r = one_movie /\
   exists e, emitted r = [e] /\ reply_sent e = Some (70%Z, delvideo_usage_text, None)).
Proof.
  split; [split; [|split; [|split]] | split; [|split]].
  - intros row [<- | []] H. apply contains_substring in H. vm_compute in H. discriminate.
  - reflexivity.
  - reflexivity.
  - eexists. split; vm_compute; reflexivity.
  - intros row _. exists [], (name row). reflexivity.
  - reflexivity.
  - eexists. split; vm_compute; reflexivity.
Qed.

(** C4, as the code has it.  For the administrator and a non-empty query,
    [delete_video] deletes exactly the records whose name matches [%query%]
    under [LIKE] and keeps the others; among the deleted are all records
    whose name contains the query.  Its single reply is the success text
    when at least one record matched and the not-found text otherwise, and
    the two differ; when no record matches, the database is unchanged. *)
Theorem delete_video_removes_like_matches ADMIN msg args (o : oracle) h s :
  from_user_id msg = ADMIN ->
  join (py " ") args <> [] ->
  let query := join (py " ") args in
  let matches := fun row => like (like_pattern query) (name row) in
  let r := delete_video ADMIN msg args o h s in
  videos (db_after r) = filter (fun row => negb (matches row)) (videos s) /\
  users (db_after r) = users s /\
  (forall row, In row (videos s) -> substring query (name row) ->
               ~ In row (videos (db_after r))) /\
  (exists e,
      emitted r = [e] /\
      reply_sent e
      = Some (chat_id msg,
              if existsb matches (videos s) then deleted_text query
              else delete_not_found_text,
              None)) /\
  (existsb matches (videos s) = false -> db_after r = s) /\
  deleted_text query <> delete_not_found_text.
Proof.
  intros Hadmin Hq. cbv zeta. unfold delete_video.
  rewrite Hadmin, Z.eqb_refl. cbn [negb].
  destruct (join (py " ") args) as [|c q] eqn:Q; [congruence|]. clear Hq.
  set (query := c :: q) in *.
  set (matches := fun row => like (like_pattern query) (name row)).
  assert (forall l, existsb matches l = false -> filter (fun row => negb (matches row)) l = l)
    as Keep.
  { induction l as [|x l IH]; cbn; [reflexivity|].
    intros H. apply orb_false_iff in H as [Hx Hl]. rewrite Hx, (IH Hl). reflexivity. }
  assert (forall l, existsb matches l
                    = match find matches l with Some _ => true | None => false end) as Ex.
  { induction l as [|x l IH]; cbn; [reflexivity|]. destruct (matches x); auto. }
  unfold bind, sql, select_id_like, delete_like, await, ret; step.
  fold matches. rewrite (Ex (videos s)).
  destruct (find matches (videos s)) as [row0|] eqn:F; cbn [option_map]; step;
    answers o; cbn [videos users].
  1,2: split; [reflexivity|]; split; [reflexivity|]; split;
    [|split; [eexists; split; reflexivity|]; split;
      [discriminate | apply texts_differ]].
  1,2: intros row Hin Hsub Hin'; apply filter_In in Hin' as [_ Hn];
    unfold matches in Hn; rewrite (like_contains _ _ Hsub) in Hn; discriminate.
  1,2: assert (existsb matches (videos s) = false) as N by (rewrite Ex, F; reflexivity);
    split; [symmetry; apply (Keep _ N)|]; split; [reflexivity|]; split;
    [|split; [eexists; split; reflexivity|]; split;
      [reflexivity | apply texts_differ]].
  1,2: intros row Hin Hsub;
    pose proof (find_none _ _ F row Hin) as Hn; unfold matches in Hn;
    rewrite (like_contains _ _ Hsub) in Hn; discriminate.
Qed.

(** Deleting ["Matrix"] from a store holding ["Matrix 1"],
    ["Inception (2010)"] and ["Matrix 2"] removes both matches; a later
    search for ["Matrix"] finds nothing. *)
Lemma delete_video_removes_like_matches_witness :
  let r := delete_video 7 alice [py "Matrix"] all_fine [] two_movies in
  videos (db_after r) = [Row 2 (py "Inception (2010)") 12] /\
  (exists e, emitted r = [e] /\
             reply_sent e = Some (70%Z, deleted_text (py "Matrix"), None)) /\
  select_message_id_like (like_pattern (py "Matrix")) (db_after r) = None.
Proof.
  destruct (delete_video_removes_like_matches 7 alice [py "Matrix"] all_fine [] two_movies)
    as (Hv & _ & _ & He & _).
  - reflexivity.
  - vm_compute; discriminate.
  - split; [rewrite Hv; vm_compute; reflexivity|].
    split; [exact He|]. vm_compute; reflexivity.
Defined.

(** ** Indexing *)

Lemma str_eqb_eq a b : str_eqb a b = true <-> a = b.
Proof.
  revert b; induction a as [|x a IH]; intros [|y b]; cbn; try (split; congruence).
  rewrite andb_true_iff, N.eqb_eq, IH. split; [intros [-> ->]; reflexivity|].
  intros [= -> ->]; auto.
Qed.

Lemma name_taken_iff n rows :
  existsb (fun r => str_eqb (name r) n) rows = true <-> exists row, In row rows /\ name row = n.
Proof.
  rewrite existsb_exists. split; intros (row & Hin & H); exists row;
    (split; [exact Hin|]); apply str_eqb_eq; exact H.
Qed.

Lemma insert_video_fresh n mid s :
  (forall row, In row (videos s) -> name row <> n) ->
  insert_video n mid s
  = (inl (next_id (videos s)),
     Store (videos s ++ [Row (next_id (videos s)) n mid]) (users s)).
Proof.
  intros Hfresh. unfold insert_video.
  destruct (existsb _ (videos s)) eqn:E; [|reflexivity].
  apply name_taken_iff in E as (row & Hin & Hn). destruct (Hfresh row Hin Hn).
Qed.

Lemma insert_video_taken n mid s :
  (exists row, In row (videos s) /\ name row = n) ->
  exists detail, insert_video n mid s = (inr (IntegrityError detail), s).
Proof.
  intros H. apply name_taken_iff in H. unfold insert_video. rewrite H. eexists; reflexivity.
Qed.

Lemma index_video_fresh ADMIN message c (o : oracle) h s :
  video message = true -> caption message = Some c -> c <> [] ->
  (forall row, In row (videos s) -> name row <> strip c) ->
  let r := index_video ADMIN (Some message) o h s in
  db_after r
  = Store (videos s ++ [Row (next_id (videos s)) (strip c) (post_message_id message)])
          (users s) /\
  exists e t, emitted r = e :: t /\ message_sent e = Some (ADMIN, indexed_text c).
Proof.
  intros Hv Hc Hne Hfresh. cbv zeta. unfold index_video. rewrite Hv, Hc.
  destruct c as [|x c]; [congruence|].
  unfold try_except, bind, sql.
  rewrite (insert_video_fresh _ (post_message_id message) s Hfresh).
  unfold await, ret; step. answers o; (split; [reflexivity|]); do 2 eexists;
    split; reflexivity.
Qed.

Lemma index_video_duplicate ADMIN message c (o : oracle) h s :
  video message = true -> caption message = Some c -> c <> [] ->
  (exists row, In row (videos s) /\ name row = strip c) ->
  let r := index_video ADMIN (Some message) o h s in
  db_after r = s /\
  exists e, emitted r = [e] /\ message_sent e = Some (ADMIN, already_registered_text c).
Proof.
  intros Hv Hc Hne Htaken. cbv zeta. unfold index_video. rewrite Hv, Hc.
  destruct c as [|x c]; [congruence|].
  destruct (insert_video_taken _ (post_message_id message) s Htaken) as [detail I].
  unfold try_except, bind, sql. rewrite I.
  unfold raise, await, ret; step. answers o; (split; [reflexivity|]); eexists;
    split; reflexivity.
Qed.

(** C3.  [index_video] on channel posts that carry a video and a caption;
    the name of a record is the caption with surrounding whitespace
    stripped.
    - Two posts whose names differ, neither of them stored yet: both are
      inserted, each with the message id of its post, and each success is
      announced to the administrator.
    - A post whose name is that of a stored record: the insertion fails on
      the uniqueness constraint, the only call is the message telling the
      administrator that the name is already registered, and the database,
      the stored record and its message id included, is unchanged. *)
Theorem index_video_keeps_names_unique ADMIN p1 p2 c1 c2 (o : oracle) h1 h2 s :
  video p1 = true -> caption p1 = Some c1 -> c1 <> [] ->
  video p2 = true -> caption p2 = Some c2 -> c2 <> [] ->
  strip c1 <> strip c2 ->
  (forall row, In row (videos s) -> name row <> strip c1 /\ name row <> strip c2) ->
  let r1 := index_video ADMIN (Some p1) o h1 s in
  let r2 := index_video ADMIN (Some p2) o h2 (db_after r1) in
  (exists i1 i2,
      db_after r2
      = Store (videos s ++ [Row i1 (strip c1) (post_message_id p1);
                            Row i2 (strip c2) (post_message_id p2)])
              (users s)) /\
  (exists e t, emitted r1 = e :: t /\ message_sent e = Some (ADMIN, indexed_text c1)) /\
  (exists e t, emitted r2 = e :: t /\ message_sent e = Some (ADMIN, indexed_text c2)) /\
  (forall p3 c3 (o' : oracle) h3 s',
      video p3 = true -> caption p3 = Some c3 -> c3 <> [] ->
      (exists row, In row (videos s') /\ name row = strip c3) ->
      let r3 := index_video ADMIN (Some p3) o' h3 s' in
      db_after r3 = s' /\
      exists e,
        emitted r3 = [e] /\ message_sent e = Some (ADMIN, already_registered_text c3)).
Proof.
  intros V1 C1 N1 V2 C2 N2 Hdiff Hfresh. cbv zeta.
  destruct (index_video_fresh ADMIN p1 c1 o h1 s V1 C1 N1) as [D1 E1].
  { intros row Hin. apply (Hfresh row Hin). }
  rewrite D1.
  destruct (index_video_fresh ADMIN p2 c2 o h2
              (Store (videos s ++ [Row (next_id (videos s)) (strip c1) (post_message_id p1)])
                     (users s)) V2 C2 N2) as [D2 E2].
  { cbn [videos]. intros row Hin. apply in_app_or in Hin as [Hin | [<- | []]].
    - apply (Hfresh row Hin).
    - cbn. exact Hdiff. }
  split; [|split; [exact E1|split; [exact E2|]]].
  - rewrite D2. cbn [videos users]. rewrite <- app_assoc. do 2 eexists. reflexivity.
  - intros p3 c3 o' h3 s' V3 C3 N3 Htaken.
    apply (index_video_duplicate ADMIN p3 c3 o' h3 s' V3 C3 N3 Htaken).
Qed.

(** ["  Matrix 1 "] and ["Matrix 2"] are both indexed, as records 1 and 2;
    a later post captioned ["Matrix 1"] is refused and record 1 keeps
    message id 21. *)
Lemma index_video_keeps_names_unique_witness :
  let r1 := index_video 1 (Some new_post) all_fine [] empty_store in
  let r2 := index_video 1 (Some second_post) all_fine [] (db_after r1) in
  let r3 := index_video 1 (Some repost) all_fine [] (db_after r2) in
  db_after r2 = Store [Row 1 (py "Matrix 1") 21; Row 2 (py "Matrix 2") 22] [] /\
  db_after r3 = db_after r2 /\
  exists e,
    emitted r3 = [e] /\
    message_sent e = Some (1%Z, already_registered_text (py "Matrix 1")).
Proof.
  destruct (index_video_keeps_names_unique 1 new_post second_post
              (py "  Matrix 1 ") (py "Matrix 2") all_fine [] [] empty_store)
    as (_ & _ & _ & H).
  - reflexivity.
  - reflexivity.
  - vm_compute; discriminate.
  - reflexivity.
  - reflexivity.
  - vm_compute; discriminate.
  - vm_compute; discriminate.
  - intros row [].
  - split; [vm_compute; reflexivity|].
    apply (H repost (py "Matrix 1") all_fine []).
    + reflexivity.
    + reflexivity.
    + vm_compute; discriminate.
    + exists (Row 1 (py "Matrix 1") 21). split; [left|]; vm_compute; reflexivity.
Defined.

(** * Further properties *)

(** ** What each handler does to the database *)

Lemma index_video_db ADMIN post (o : oracle) h s :
  let r := index_video ADMIN post o h s in
  db_after r = s \/
  exists message c,
    post = Some message /\ video message = true /\ caption message = Some c /\ c <> [] /\
    (forall row, In row (videos s) -> name row <> strip c) /\
    db_after r
    = Store (videos s ++ [Row (next_id (videos s)) (strip c) (post_message_id message)])
            (users s).
Proof.
  cbv zeta. destruct post as [message|]; [|left; reflexivity].
  destruct (video message) eqn:V; [|left; unfold index_video; rewrite V; reflexivity].
  destruct (caption message) as [[|x c]|] eqn:C.
  - left. unfold index_video; rewrite V, C.
    unfold bind, await, ret; step. answers o; reflexivity.
  - destruct (existsb (fun r => str_eqb (name r) (strip (x :: c))) (videos s)) eqn:T.
    + left. apply name_taken_iff in T.
      apply (index_video_duplicate ADMIN message (x :: c) o h s V C); [discriminate|exact T].
    + right. exists message, (x :: c).
      assert (forall row, In row (videos s) -> name row <> strip (x :: c)) as Hfresh.
      { intros row Hin Hn.
        assert (existsb (fun r => str_eqb (name r) (strip (x :: c))) (videos s) = true) as T'
            by (apply name_taken_iff; eauto).
        congruence. }
      repeat split; auto; [discriminate|].
      apply (index_video_fresh ADMIN message (x :: c) o h s V C); [discriminate|exact Hfresh].
  - left. unfold index_video; rewrite V, C.
    unfold bind, await, ret; step. answers o; reflexivity.
Qed.

Lemma delete_video_db ADMIN msg args (o : oracle) h s :
  let r := delete_video ADMIN msg args o h s in
  db_after r = s \/
  (from_user_id msg = ADMIN /\ join (py " ") args <> [] /\
   db_after r = delete_like (like_pattern (join (py " ") args)) s).
Proof.
  cbv zeta. unfold delete_video.
  destruct (Z.eqb (from_user_id msg) ADMIN) eqn:A; cbn [negb]; [|left; reflexivity].
  apply Z.eqb_eq in A.
  destruct (join (py " ") args) as [|c q] eqn:Q.
  - left. unfold bind, await, ret; step. answers o; reflexivity.
  - unfold bind, sql; step.
    destruct (select_id_like (like_pattern (c :: q)) s) as [i|]; step.
    + right. unfold await, ret; step. answers o; (repeat split; [assumption|discriminate]).
    + left. unfold await, ret; step. answers o; reflexivity.
Qed.

Lemma start_db P channels as_integer msg args (o : oracle) h s :
  db_after (start P channels as_integer msg args o h s)
  = insert_or_ignore_user (from_user_id msg) s.
Proof.
  destruct args as [|video_id args].
  - unfold start, bind, try_except, sql, await, ret; step. answers o; reflexivity.
  - destruct (start_deep_link P channels as_integer msg video_id args o h s) as (_ & -> & _).
    apply send_video_by_id_run.
Qed.

Lemma ask_for_movie_name_db channels msg (o : oracle) h s :
  db_after (ask_for_movie_name channels msg o h s) = s.
Proof.
  unfold ask_for_movie_name, bind. rewrite is_user_member_run; step.
  destruct (fst (gate channels (from_user_id msg) o h)); cbn [negb];
    unfold await, ret; step; answers o; reflexivity.
Qed.

Lemma get_link_db ADMIN username msg args (o : oracle) h s :
  db_after (get_link ADMIN username msg args o h s) = s.
Proof.
  unfold get_link. destruct (Z.eqb (from_user_id msg) ADMIN); cbn [negb]; [|reflexivity].
  destruct (join (py " ") args) as [|c q];
    [unfold bind, await, ret; step; answers o; reflexivity|].
  unfold bind, sql; step.
  destruct (select_id_like (like_pattern (c :: q)) s); unfold await, ret; step;
    answers o; reflexivity.
Qed.

Lemma bot_stats_run msg (o : oracle) h s :
  let r := bot_stats msg o h s in
  db_after r = s /\
  exists e,
    emitted r = [e] /\
    reply_sent e = Some (chat_id msg, stats_text (count_users s) (count_videos s), None).
Proof.
  cbv zeta. unfold bot_stats, bind, sql, await, ret; step.
  answers o; (split; [reflexivity|]); eexists; split; reflexivity.
Qed.

(** ** The invariant of the database *)

Lemma fold_left_max_bounds (l : list Z) (a : Z) :
  (a <= fold_left Z.max l a)%Z /\ (forall x, In x l -> (x <= fold_left Z.max l a)%Z).
Proof.
  revert a; induction l as [|y l IH]; intros a; cbn.
  - split; [lia | intros x []].
  - destruct (IH (Z.max a y)) as [H1 H2]. split; [lia|].
    intros x [<- | Hx]; [lia | auto].
Qed.

Lemma next_id_above rows row : In row rows -> (id row < next_id rows)%Z.
Proof.
  destruct rows as [|r rows]; [intros []|]. cbn [next_id].
  destruct (fold_left_max_bounds (map id rows) (id r)) as [H1 H2].
  intros [<- | Hin]; [lia|].
  specialize (H2 (id row) (in_map id _ _ Hin)). lia.
Qed.

Lemma NoDup_snoc {A} (l : list A) (y : A) : NoDup l -> ~ In y l -> NoDup (l ++ [y]).
Proof.
  intros Hl Hy. induction Hl as [|x l Hx Hl IH]; cbn.
  - constructor; [intros []|constructor].
  - constructor.
    + rewrite in_app_iff. intros [H | [-> | []]]; [auto | apply Hy; left; reflexivity].
    + apply IH. intros H; apply Hy; right; exact H.
Qed.

Lemma sorted_snoc (l : list Z) (y : Z) :
  StronglySorted Z.lt l -> (forall x, In x l -> (x < y)%Z) -> StronglySorted Z.lt (l ++ [y]).
Proof.
  intros Hl Hy. induction Hl as [|x l Hl IH Hx]; cbn.
  - constructor; constructor.
  - constructor.
    + apply IH. intros z Hz; apply Hy; right; exact Hz.
    + rewrite Forall_app. split; [exact Hx|]. constructor; [|constructor].
      apply Hy; left; reflexivity.
Qed.

Lemma NoDup_map_filter {A B} (f : A -> B) (p : A -> bool) (l : list A) :
  NoDup (map f l) -> NoDup (map f (filter p l)).
Proof.
  induction l as [|x l IH]; cbn; [auto|].
  intros H; inversion H as [|? ? Hx Hl]; subst.
  destruct (p x); cbn; [constructor|]; auto.
  intros Hin. apply Hx. apply in_map_iff in Hin as (y & <- & Hy).
  apply filter_In in Hy as [Hy _]. apply in_map; exact Hy.
Qed.

Lemma sorted_map_filter {A} (f : A -> Z) (p : A -> bool) (l : list A) :
  StronglySorted Z.lt (map f l) -> StronglySorted Z.lt (map f (filter p l)).
Proof.
  induction l as [|x l IH]; cbn; [auto|].
  intros H; inversion H as [|? ? Hl Hx]; subst.
  destruct (p x); cbn; [constructor|]; auto.
  rewrite Forall_forall in *. intros z Hz. apply Hx.
  apply in_map_iff in Hz as (y & <- & Hy).
  apply filter_In in Hy as [Hy _]. apply in_map; exact Hy.
Qed.

Lemma insert_or_ignore_user_spec u s :
  videos (insert_or_ignore_user u s) = videos s /\
  In u (users (insert_or_ignore_user u s)) /\
  (In u (users s) -> insert_or_ignore_user u s = s) /\
  (~ In u (users s) -> users (insert_or_ignore_user u s) = users s ++ [u]) /\
  (NoDup (users s) -> NoDup (users (insert_or_ignore_user u s))).
Proof.
  unfold insert_or_ignore_user.
  destruct (existsb (Z.eqb u) (users s)) eqn:E.
  - apply existsb_exists in E as (x & Hx & Hux). apply Z.eqb_eq in Hux; subst x.
    repeat split; auto. intros H; contradiction.
  - assert (~ In u (users s)) as Hn.
    { intros Hin. rewrite <- not_true_iff_false in E. apply E.
      apply existsb_exists. exists u. split; [exact Hin | apply Z.eqb_refl]. }
    cbn [videos users]. repeat split; auto.
    + apply in_or_app; right; left; reflexivity.
    + intros H; contradiction.
    + intros Hd. apply NoDup_snoc; assumption.
Qed.

(** X5.  The three handlers that write to the database keep its invariant:
    after [index_video], [delete_video] and [start] the names of the
    records are still pairwise distinct, their ids still increase along the
    table, and no user id is registered twice, whatever the transport
    answers. *)
Theorem writers_keep_store_ok ADMIN P channels as_integer post msg args (o : oracle) h s :
  store_ok s ->
  store_ok (db_after (index_video ADMIN post o h s)) /\
  store_ok (db_after (delete_video ADMIN msg args o h s)) /\
  store_ok (db_after (start P channels as_integer msg args o h s)).
Proof.
  intros (Hn & Hi & Hu). split; [|split].
  - destruct (index_video_db ADMIN post o h s)
      as [-> | (message & c & _ & _ & _ & _ & Hfresh & ->)]; [repeat split; assumption|].
    unfold store_ok; cbn [videos users]. rewrite !map_app; cbn [map name id].
    split; [|split; [|exact Hu]].
    + apply NoDup_snoc; [exact Hn|].
      intros Hin. apply in_map_iff in Hin as (row & Hrow & Hin). exact (Hfresh row Hin Hrow).
    + apply sorted_snoc; [exact Hi|].
      intros x Hx. apply in_map_iff in Hx as (row & <- & Hin). apply next_id_above, Hin.
  - destruct (delete_video_db ADMIN msg args o h s) as [-> | (_ & _ & ->)];
      [repeat split; assumption|].
    unfold store_ok, delete_like; cbn [videos users].
    split; [apply NoDup_map_filter, Hn | split; [apply sorted_map_filter, Hi | exact Hu]].
  - rewrite start_db.
    destruct (insert_or_ignore_user_spec (from_user_id msg) s) as (Hv & _ & _ & _ & Hd).
    unfold store_ok. rewrite Hv. auto.
Qed.

Lemma writers_keep_store_ok_witness :
  store_ok (db_after (index_video 7 (Some second_post) all_fine [] two_movies)) /\
  store_ok (db_after (delete_video 7 alice [py "Matrix"] all_fine [] two_movies)) /\
  store_ok (db_after (start 0 lexobit decimal alice [py "Matrix"] all_fine [] two_movies)).
Proof.
  apply (writers_keep_store_ok 7 0 lexobit decimal (Some second_post) alice [py "Matrix"]
           all_fine [] two_movies).
  unfold store_ok, two_movies; cbn [videos users map name id]. split; [|split].
  - repeat (constructor;
            [cbn; intros H; repeat destruct H as [H|H];
             try (vm_compute in H; discriminate H); try exact H|]).
    constructor.
  - repeat constructor; lia.
  - constructor.
Defined.

(** ** Registration and statistics *)

(** X1.  [/start] registers the sender whatever else happens: with or
    without a deep-link argument, member or not, and whatever the transport
    answers, the sender's id is in the table of users afterwards.  A sender
    already registered leaves the database as it was; a new one is added
    once, at the end; the records are never touched. *)
Theorem start_registers_sender P channels as_integer msg args (o : oracle) h s :
  let r := start P channels as_integer msg args o h s in
  In (from_user_id msg) (users (db_after r)) /\
  videos (db_after r) = videos s /\
  (In (from_user_id msg) (users s) -> db_after r = s) /\
  (~ In (from_user_id msg) (users s) ->
   users (db_after r) = users s ++ [from_user_id msg]) /\
  (forall args' (o' : oracle) h',
      db_after (start P channels as_integer msg args' o' h' (db_after r)) = db_after r).
Proof.
  cbv zeta. rewrite start_db.
  destruct (insert_or_ignore_user_spec (from_user_id msg) s) as (Hv & Hin & Hold & Hnew & _).
  repeat split; auto.
  intros args' o' h'. rewrite start_db.
  apply (insert_or_ignore_user_spec (from_user_id msg)
           (insert_or_ignore_user (from_user_id msg) s)), Hin.
Qed.

(** X2.  [bot_stats] reads the two tables and changes nothing: its single
    reply carries the number of users and the number of records.  Run after
    a [/start], it counts one user more than before when the sender was
    new and the same number otherwise, and the same records. *)
Theorem stats_count_registrations P channels as_integer msg args (o o' : oracle) h h' s
        asker :
  let r := start P channels as_integer msg args o h s in
  let r' := bot_stats asker o' h' (db_after r) in
  db_after r' = db_after r /\
  (exists e,
      emitted r' = [e] /\
      reply_sent e
      = Some (chat_id asker,
              stats_text (count_users s
                          + (if existsb (Z.eqb (from_user_id msg)) (users s) then 0 else 1))
                         (count_videos s),
              None)).
Proof.
  cbv zeta.
  destruct (bot_stats_run asker o' h' (db_after (start P channels as_integer msg args o h s)))
    as [Hdb (e & He & Hr)].
  split; [exact Hdb|]. exists e. split; [exact He|]. rewrite Hr, start_db.
  unfold count_users, count_videos, insert_or_ignore_user.
  destruct (existsb (Z.eqb (from_user_id msg)) (users s)); cbn [users videos].
  - rewrite Z.add_0_r. reflexivity.
  - rewrite length_app, Nat2Z.inj_add. reflexivity.
Qed.

(** ** Who can change the records *)

(** X4.  Nobody but the administrator changes the records through the
    bot's commands and menu.  [get_link] and [delete_video] sent by anyone
    else make no call at all and leave the database as it was; and each of
    [start], [send_video_by_id], [ask_for_movie_name],
    [search_received_movie_name], [cancel_search], [help_command],
    [bot_stats] and [get_link], sent by anyone, leaves the records as they
    were. *)
Theorem only_admin_changes_records ADMIN username P channels as_integer msg args video_id
        (o : oracle) h s :
  (from_user_id msg <> ADMIN ->
   emitted (delete_video ADMIN msg args o h s) = [] /\
   db_after (delete_video ADMIN msg args o h s) = s /\
   emitted (get_link ADMIN username msg args o h s) = [] /\
   db_after (get_link ADMIN username msg args o h s) = s) /\
  videos (db_after (start P channels as_integer msg args o h s)) = videos s /\
  db_after (send_video_by_id P channels as_integer msg video_id o h s) = s /\
  db_after (ask_for_movie_name channels msg o h s) = s /\
  db_after (search_received_movie_name P msg o h s) = s /\
  db_after (cancel_search msg o h s) = s /\
  db_after (help_command msg o h s) = s /\
  db_after (bot_stats msg o h s) = s /\
  db_after (get_link ADMIN username msg args o h s) = s.
Proof.
  split.
  - intros Hn. apply Z.eqb_neq in Hn.
    unfold delete_video, get_link. rewrite Hn. cbn. auto.
  - rewrite start_db.
    repeat split.
    + apply insert_or_ignore_user_spec.
    + apply send_video_by_id_run.
    + apply ask_for_movie_name_db.
    + apply search_received_movie_name_run.
    + unfold cancel_search, bind, await, ret; step. answers o; reflexivity.
    + unfold help_command, bind, await, ret; step. answers o; reflexivity.
    + apply bot_stats_run.
    + apply get_link_db.
Qed.

Lemma only_admin_changes_records_witness :
  emitted (delete_video 1 alice [py "Matrix"] all_fine [] two_movies) = [] /\
  db_after (delete_video 1 alice [py "Matrix"] all_fine [] two_movies) = two_movies /\
  emitted (get_link 1 (py "lexo_bot") alice [py "Matrix"] all_fine [] two_movies) = [] /\
  db_after (get_link 1 (py "lexo_bot") alice [py "Matrix"] all_fine [] two_movies)
  = two_movies.
Proof.
  apply (only_admin_changes_records 1 (py "lexo_bot") 0 lexobit decimal alice [py "Matrix"]
           (py "5") all_fine [] two_movies).
  discriminate.
Defined.

(** ** Indexing: what is never indexed, and what indexing never does *)

(** X10.  [index_video] only ever appends: whatever the update and the
    transport, the database afterwards holds the same users and the same
    records in the same order, followed by at most one new record.  An
    update that is no channel post, or a post without a video, makes no
    call and changes nothing; a video without a caption, or with an empty
    one, changes nothing and has one call, the message telling the
    administrator that it was not indexed. *)
Theorem index_video_only_appends ADMIN post (o : oracle) h s :
  let r := index_video ADMIN post o h s in
  users (db_after r) = users s /\
  (exists added, videos (db_after r) = videos s ++ added /\ (List.length added <= 1)%nat) /\
  ((post = None \/ exists message, post = Some message /\ video message = false) ->
   emitted r = [] /\ db_after r = s) /\
  (forall message,
      post = Some message -> video message = true ->
      caption message = None \/ caption message = Some [] ->
      db_after r = s /\
      exists e, emitted r = [e] /\ message_sent e = Some (ADMIN, no_caption_text)).
Proof.
  cbv zeta. split; [|split; [|split]].
  - destruct (index_video_db ADMIN post o h s) as [-> | (m & c & _ & _ & _ & _ & _ & ->)];
      reflexivity.
  - destruct (index_video_db ADMIN post o h s) as [-> | (m & c & _ & _ & _ & _ & _ & ->)].
    + exists []. rewrite app_nil_r. auto.
    + eexists. split; [reflexivity|]. cbn; lia.
  - intros [-> | (message & -> & V)]; [auto|].
    unfold index_video. rewrite V. auto.
  - intros message -> V C. unfold index_video. rewrite V.
    destruct C as [-> | ->]; unfold bind, await, ret; step;
      answers o; (split; [reflexivity|]); eexists; split; reflexivity.
Qed.

(** X14.  When a record has been inserted and the message announcing it
    raises, with detail [d], the record stays in the database and the
    handler's second and last call tells the administrator
    ["Error during indexing: d"]. *)
Theorem failed_announcement_keeps_record ADMIN message c (o : oracle) h s d :
  video message = true -> caption message = Some c -> c <> [] ->
  (forall row, In row (videos s) -> name row <> strip c) ->
  o h Z (send_message ADMIN (indexed_text c)) = Failed d ->
  let r := index_video ADMIN (Some message) o h s in
  videos (db_after r)
  = videos s ++ [Row (next_id (videos s)) (strip c) (post_message_id message)] /\
  exists e1 e2,
    emitted r = [e1; e2] /\
    message_failure e1 = Some (indexed_text c, d) /\
    message_sent e2 = Some (ADMIN, indexing_error_text (TelegramError d)) /\
    indexing_error_text (TelegramError d) = py "Error during indexing: " ++ d.
Proof.
  intros Hv Hc Hne Hfresh Ho. cbv zeta. unfold index_video. rewrite Hv, Hc.
  destruct c as [|x c]; [congruence|].
  unfold try_except, bind, sql.
  rewrite (insert_video_fresh _ (post_message_id message) s Hfresh).
  unfold await, ret; step. rewrite (app_nil_r h), Ho; step.
  answers o; (split; [reflexivity|]); do 2 eexists; repeat split; reflexivity.
Qed.

Lemma failed_announcement_keeps_record_witness :
  let r := index_video 1 (Some new_post) announcement_raises [] empty_store in
  videos (db_after r) = [] ++ [Row (next_id []) (strip (py "  Matrix 1 ")) 21] /\
  exists e1 e2,
    emitted r = [e1; e2] /\
    message_failure e1 = Some (indexed_text (py "  Matrix 1 "), py "Timed out") /\
    message_sent e2 = Some (1%Z, indexing_error_text (TelegramError (py "Timed out"))) /\
    indexing_error_text (TelegramError (py "Timed out"))
    = py "Error during indexing: " ++ py "Timed out".
Proof.
  apply (failed_announcement_keeps_record 1 new_post (py "  Matrix 1 ") announcement_raises
           [] empty_store (py "Timed out")).
  - reflexivity.
  - reflexivity.
  - vm_compute; discriminate.
  - intros row [].
  - reflexivity.
Defined.

(** ** The first failing lookup ends the gate *)

Lemma gate_prefix channels u (o : oracle) h :
  let t := snd (gate channels u o h) in
  lookups_of t = map (fun channel => (channel, u)) (firstn (List.length t) channels) /\
  (List.length t <= List.length channels)%nat /\
  (fst (gate channels u o h) = false ->
   exists pre last,
     t = pre ++ [last] /\ lookup_fails last = true /\ existsb lookup_fails pre = false).
Proof.
  cbv zeta. revert h; induction channels as [|ch rest IH]; intros h; cbn [gate].
  - cbn. repeat split; auto. discriminate.
  - destruct (o h str (get_chat_member ch u)) as [status|d] eqn:R.
    + destruct (is_joined status) eqn:J.
      * specialize (IH (h ++ [Called (get_chat_member ch u) (Ok status)])).
        destruct (gate rest u o _) as [b t]; cbn [fst snd] in *.
        destruct IH as (IH1 & IH2 & IH3).
        split; [|split].
        -- unfold lookups_of in *. cbn. rewrite IH1. reflexivity.
        -- cbn. lia.
        -- intros Hb. destruct (IH3 Hb) as (pre & last & -> & Hl & Hp).
           exists (Called (get_chat_member ch u) (Ok status) :: pre), last.
           repeat split; auto. cbn. rewrite J, Hp. reflexivity.
      * cbn. repeat split; [lia|]. intros _.
        exists [], (Called (get_chat_member ch u) (Ok status)).
        repeat split. cbn. rewrite J. reflexivity.
    + cbn. repeat split; [lia|]. intros _.
      exists [], (Called (get_chat_member ch u) (@Failed str d)). repeat split.
Qed.

(** X12.  [is_user_member] asks about nobody but the given user and
    consults the required channels in their order, each at most once.  It
    stops at the first lookup that fails: when it returns [False], the
    failing lookup is its last call and every lookup before it passed, so
    the channels after it are not consulted. *)
Theorem gate_stops_at_first_failure channels u (o : oracle) h s :
  let r := is_user_member channels u o h s in
  lookups_of (emitted r)
  = map (fun channel => (channel, u)) (firstn (List.length (emitted r)) channels) /\
  (List.length (emitted r) <= List.length channels)%nat /\
  (outcome r = inl false ->
   exists pre last,
     emitted r = pre ++ [last] /\ lookup_fails last = true /\
     existsb lookup_fails pre = false).
Proof.
  cbv zeta. rewrite is_user_member_run; step.
  destruct (gate_prefix channels u o h) as (H1 & H2 & H3).
  repeat split; auto. intros Hf. apply H3. congruence.
Qed.

(** ** Exceptions that leave a handler *)

Lemma last_entry_app t1 t2 e :
  last_entry t2 = Some e -> last_entry (t1 ++ t2) = Some e.
Proof.
  unfold last_entry. rewrite rev_app_distr.
  destruct (rev t2); [discriminate|]. cbn. auto.
Qed.


Lemma copy_and_schedule_raises P msg mid (o : oracle) h s :
  raised_by_last_reply (copy_and_schedule P msg mid o h s).
Proof.
  unfold raised_by_last_reply, copy_and_schedule, try_except, bind, await, do, ret; step.
  answers o; intros e He; try discriminate He; injection He as <-;
    do 3 eexists; (split; [reflexivity | split; reflexivity]).
Qed.

Lemma raised_after {A} (r : ran A) (pre : list entry) (x : A + exn) s :
  raised_by_last_reply r -> x = outcome r ->
  raised_by_last_reply (Ran x s (pre ++ emitted r)).
Proof.
  intros Hr -> e He. cbn in He. destruct (Hr e He) as (last & txt & d & Hl & Hf & ->).
  exists last, txt, d. cbn. auto using last_entry_app.
Qed.

Lemma send_video_by_id_raises P channels as_integer msg video_id (o : oracle) h s :
  raised_by_last_reply (send_video_by_id P channels as_integer msg video_id o h s).
Proof.
  unfold send_video_by_id, bind. rewrite is_user_member_run; step.
  destruct (gate channels (from_user_id msg) o h) as [[|] lookups]; cbn [fst snd negb].
  - unfold sql; step.
    destruct (select_message_id_by_id as_integer video_id s) as [mid|].
    + cbn [app]. apply raised_after; try reflexivity. apply copy_and_schedule_raises.
    + unfold raised_by_last_reply, await, ret; step. answers o; by_last_reply last_entry_app.
  - unfold raised_by_last_reply, await, ret; step. answers o; by_last_reply last_entry_app.
Qed.

Lemma search_received_movie_name_raises P msg (o : oracle) h s :
  raised_by_last_reply (search_received_movie_name P msg o h s).
Proof.
  unfold search_received_movie_name, bind, sql; step.
  destruct (select_message_id_like (like_pattern (text msg)) s) as [mid|].
  - rewrite (app_nil_r h).
    pose proof (copy_and_schedule_raises P msg mid o h s) as Hr.
    unfold raised_by_last_reply in *.
    destruct (outcome (copy_and_schedule P msg mid o h s)) as [[]|e0]; unfold ret; step.
    + discriminate.
    + intros e He. injection He as <-. apply (Hr e0 eq_refl).
  - unfold raised_by_last_reply, await, ret; step. answers o; by_last_reply last_entry_app.
Qed.

(** X11.  The only exception that can leave [send_video_by_id],
    [search_received_movie_name], [ask_for_movie_name] or [start] is that of
    a [reply_text] that raised, and that reply is then the handler's last
    call.  A membership lookup or a [copy_message] that raises never ends
    the handler with an exception. *)
Theorem only_a_failed_reply_escapes P channels as_integer msg video_id args (o : oracle)
        h s :
  raised_by_last_reply (send_video_by_id P channels as_integer msg video_id o h s) /\
  raised_by_last_reply (search_received_movie_name P msg o h s) /\
  raised_by_last_reply (ask_for_movie_name channels msg o h s) /\
  raised_by_last_reply (start P channels as_integer msg args o h s).
Proof.
  split; [apply send_video_by_id_raises|].
  split; [apply search_received_movie_name_raises|].
  split.
  - unfold ask_for_movie_name, bind. rewrite is_user_member_run; step.
    destruct (gate channels (from_user_id msg) o h) as [[|] lookups]; cbn [fst snd negb];
      unfold raised_by_last_reply, await, ret; step; answers o; by_last_reply last_entry_app.
  - destruct args as [|v args].
    + unfold raised_by_last_reply, start, bind, try_except, sql, await, ret; step.
      answers o; by_last_reply last_entry_app.
    + destruct (start_deep_link P channels as_integer msg v args o h s) as (Ho & _ & He).
      intros e Hr. rewrite Ho in Hr. rewrite He.
      apply (send_video_by_id_raises P channels as_integer msg v o h _ e Hr).
Qed.

Lemma only_a_failed_reply_escapes_witness :
  exists last txt d,
    last_entry (emitted (send_video_by_id 0 lexobit decimal alice (py "6") replies_raise []
                                          one_movie))
    = Some last /\
    reply_failure last = Some (txt, d) /\
    TelegramError (py "Forbidden: bot was blocked by the user") = TelegramError d.
Proof.
  apply (only_a_failed_reply_escapes 0 lexobit decimal alice (py "6") [] replies_raise []
           one_movie).
  reflexivity.
Defined.

(** ** From delivery to cleanup *)

Lemma tasks_of_app t1 t2 : tasks_of (t1 ++ t2) = tasks_of t1 ++ tasks_of t2.
Proof. unfold tasks_of. apply flat_map_app. Qed.

Lemma no_tasks_in_lookups t : forallb is_lookup t = true -> tasks_of t = [].
Proof.
  unfold tasks_of. induction t as [|e t IH]; cbn [forallb flat_map]; [reflexivity|].
  intros H; apply andb_true_iff in H as [He Ht]. rewrite (IH Ht). observe e.
Qed.

Lemma run_task_deletes chat sent warning (o : oracle) h s :
  let c := run_task (DeleteMessagesAfterDelay chat [sent; warning] 30) o h s in
  outcome c = inl tt /\
  exists t, emitted c = Did (sleep 30) :: t /\
            existsb is_sleep t = false /\
            deletions t = [(chat, sent); (chat, warning)].
Proof.
  cbv zeta. unfold run_task, delete_messages_after_delay, bind, do; step.
  destruct (cleanup_loop chat [sent; warning] o (h ++ [Did (sleep 30)]) s)
    as (Ho & _ & Hs & Hd & _).
  split; [exact Ho|]. eexists. split; [reflexivity|]. auto.
Qed.

(** X7.  Every task that [send_video_by_id] or [search_received_movie_name]
    creates is the cleanup of what was just delivered.  It is created last,
    right after a [copy_message] that returned message [sent] and the
    warning reply that returned message [warning]; it is the only task of
    the run; and when the event loop runs it, against any transport, it
    sleeps 30 seconds once and then calls [delete_message] for [sent] and for
    [warning], in that order, in the requesting chat, and for nothing else. *)
Theorem created_task_deletes_the_delivery P channels as_integer msg video_id (o : oracle)
        h s t k :
  t = emitted (send_video_by_id P channels as_integer msg video_id o h s) \/
  t = emitted (search_received_movie_name P msg o h s) ->
  In k (tasks_of t) ->
  exists pre e1 sent warning,
    t = pre ++ [e1; Called (reply_text (chat_id msg) auto_delete_text None) (Ok warning);
                Did (create_task k)] /\
    copy_done e1 = Some sent /\
    k = DeleteMessagesAfterDelay (chat_id msg) [sent; warning] 30 /\
    tasks_of t = [k] /\
    forall (o' : oracle) h' s',
      let c := run_task k o' h' s' in
      outcome c = inl tt /\
      exists t', emitted c = Did (sleep 30) :: t' /\
                 existsb is_sleep t' = false /\
                 deletions t' = [(chat_id msg, sent); (chat_id msg, warning)].
Proof.
  intros Ht Hk.
  assert (resolved (chat_id msg) t) as (lookups & tail & -> & Hl & Htail).
  { destruct Ht as [-> | ->].
    - eapply deep_link_resolved, send_video_by_id_run.
    - eapply search_resolved, search_received_movie_name_run. }
  clear Ht. rewrite tasks_of_app, (no_tasks_in_lookups _ Hl) in *. cbn [app] in Hk |- *.
  destruct Htail as [[e1 e2 d -> H1 H2 | e1 e2 e3 sent d -> H0 H1 H2 | e1 e2 sent w -> H1 ->]
                    | (x & y & -> & Hx)].
  - exfalso. observe e1; observe e2.
  - exfalso. observe e1; observe e2; observe e3.
  - assert (tasks_of [e1; Called (reply_text (chat_id msg) auto_delete_text None) (Ok w);
                      Did (create_task
                             (DeleteMessagesAfterDelay (chat_id msg) [sent; w] 30))]
            = [DeleteMessagesAfterDelay (chat_id msg) [sent; w] 30]) as E
        by (observe e1).
    rewrite E in *. destruct Hk as [<- | []].
    exists lookups, e1, sent, w. repeat split; auto.
    + apply run_task_deletes.
    + apply run_task_deletes.
  - exfalso. observe x.
Qed.

Lemma created_task_deletes_the_delivery_witness :
  exists pre e1 sent warning,
    emitted (send_video_by_id 0 lexobit decimal alice (py "5") all_fine [] one_movie)
    = pre ++ [e1; Called (reply_text 70 auto_delete_text None) (Ok warning);
              Did (create_task (DeleteMessagesAfterDelay 70 [1001%Z; 1002%Z] 30))] /\
    copy_done e1 = Some sent /\
    DeleteMessagesAfterDelay 70 [1001%Z; 1002%Z] 30
    = DeleteMessagesAfterDelay 70 [sent; warning] 30 /\
    tasks_of (emitted (send_video_by_id 0 lexobit decimal alice (py "5") all_fine []
                                        one_movie))
    = [DeleteMessagesAfterDelay 70 [1001%Z; 1002%Z] 30] /\
    forall (o' : oracle) h' s',
      let c := run_task (DeleteMessagesAfterDelay 70 [1001%Z; 1002%Z] 30) o' h' s' in
      outcome c = inl tt /\
      exists t', emitted c = Did (sleep 30) :: t' /\
                 existsb is_sleep t' = false /\
                 deletions t' = [(70%Z, sent); (70%Z, warning)].
Proof.
  apply (created_task_deletes_the_delivery 0 lexobit decimal alice (py "5") all_fine []
           one_movie
           (emitted (send_video_by_id 0 lexobit decimal alice (py "5") all_fine []
                                      one_movie))).
  - left; reflexivity.
  - vm_compute. left; reflexivity.
Defined.

(** ** Search, deletion and indexing together *)

Lemma find_split {A} (f : A -> bool) (l : list A) x :
  find f l = Some x ->
  exists before after,
    l = before ++ x :: after /\ f x = true /\ (forall y, In y before -> f y = false).
Proof.
  induction l as [|y l IH]; cbn; [discriminate|].
  destruct (f y) eqn:Fy.
  - intros [= ->]. exists [], l. repeat split; auto. intros ? [].
  - intros H. destruct (IH H) as (before & after & -> & Hx & Hb).
    exists (y :: before), after. repeat split; auto.
    intros z [<- | Hz]; auto.
Qed.

Lemma sorted_app_lt (f : video_row -> Z) before x after y :
  StronglySorted Z.lt (map f (before ++ x :: after)) -> In y after -> (f x < f y)%Z.
Proof.
  induction before as [|b before IH]; cbn; intros H Hy.
  - inversion H as [|? ? _ Hall]; subst. rewrite Forall_forall in Hall.
    apply Hall, in_map, Hy.
  - inversion H; subst. auto.
Qed.

(** X6.  In a database that satisfies the invariant on ids, the record
    whose message [search_received_movie_name] copies is, among the records
    whose name matches [%query%], the one with the smallest id. *)
Theorem search_copies_lowest_id P msg (o : oracle) h s e :
  StronglySorted Z.lt (map id (videos s)) ->
  In e (emitted (search_received_movie_name P msg o h s)) ->
  is_copy e = true ->
  exists row,
    In row (videos s) /\
    like (like_pattern (text msg)) (name row) = true /\
    copy_sent e = Some (chat_id msg, P, message_id row) /\
    forall row',
      In row' (videos s) -> like (like_pattern (text msg)) (name row') = true ->
      (id row <= id row')%Z.
Proof.
  intros Hsorted Hin He.
  destruct (search_received_movie_name_run P msg o h s) as [_ R].
  destruct R as [report Et Hs Hr | mid e0 t' Et Hs Hc Hd]; rewrite Et in Hin.
  - destruct Hin as [<- | []]. observe report.
  - assert (e = e0) as ->.
    { destruct Hin as [<- | Hin]; [reflexivity|].
      pose proof (delivery_head_only _ _ _ Hd) as N.
      rewrite <- not_true_iff_false, existsb_exists in N. destruct N; eauto. }
    unfold select_message_id_like in Hs.
    destruct (find _ (videos s)) as [row|] eqn:F; [|discriminate].
    injection Hs as <-.
    destruct (find_split _ _ _ F) as (before & after & Ev & Hrow & Hbefore).
    exists row. rewrite Ev in *. repeat split; auto.
    + apply in_or_app; right; left; reflexivity.
    + intros row' Hin' Hm. apply in_app_or in Hin' as [Hb | [<- | Ha]].
      * rewrite (Hbefore row' Hb) in Hm. discriminate.
      * lia.
      * pose proof (sorted_app_lt id before row after row' Hsorted Ha). lia.
Qed.

Lemma search_copies_lowest_id_witness :
  exists row,
    In row (videos two_movies) /\
    like (like_pattern (py "matrix")) (name row) = true /\
    copy_sent (Called (copy_message 70 0 11) (Ok 1000%Z)) = Some (70%Z, 0%Z, message_id row) /\
    forall row',
      In row' (videos two_movies) -> like (like_pattern (py "matrix")) (name row') = true ->
      (id row <= id row')%Z.
Proof.
  apply (search_copies_lowest_id 0 alice all_fine [] two_movies).
  - cbn. repeat constructor; lia.
  - vm_compute. left; reflexivity.
  - reflexivity.
Defined.

Lemma delete_video_admin ADMIN msg args (o : oracle) h s :
  from_user_id msg = ADMIN -> join (py " ") args <> [] ->
  videos (db_after (delete_video ADMIN msg args o h s))
  = filter (fun row => negb (like (like_pattern (join (py " ") args)) (name row))) (videos s).
Proof.
  intros Hadmin Hq. unfold delete_video. rewrite Hadmin, Z.eqb_refl. cbn [negb].
  destruct (join (py " ") args) as [|c q]; [congruence|].
  unfold bind, sql, select_id_like; step.
  destruct (find (fun r => like (like_pattern (c :: q)) (name r)) (videos s)) eqn:F;
    cbn [option_map]; step; unfold await, ret; step; answers o; try reflexivity.
  all: symmetry; clear - F; induction (videos s) as [|x l IH]; cbn in *; [reflexivity|];
    destruct (like (like_pattern (c :: q)) (name x)); [discriminate|];
    cbn; rewrite (IH F); reflexivity.
Qed.

(** X8.  After the administrator's [/delvideo query] (non-empty query), a
    search for the same text finds nothing: whoever asks and whatever the
    transport answers, [search_received_movie_name] copies nothing and its
    only call is the not-found reply. *)
Theorem deleted_names_are_not_found ADMIN P admin_msg args (o o' : oracle) h h' s msg :
  from_user_id admin_msg = ADMIN ->
  join (py " ") args <> [] ->
  text msg = join (py " ") args ->
  let s' := db_after (delete_video ADMIN admin_msg args o h s) in
  let r := search_received_movie_name P msg o' h' s' in
  existsb is_copy (emitted r) = false /\
  exists report,
    emitted r = [report] /\
    reply_sent report = Some (chat_id msg, movie_not_found_text, None).
Proof.
  intros Hadmin Hq Htext. cbv zeta.
  pose proof (delete_video_admin ADMIN admin_msg args o h s Hadmin Hq) as Hv.
  destruct (search_received_movie_name_run P msg o' h'
              (db_after (delete_video ADMIN admin_msg args o h s))) as [_ R].
  destruct R as [report -> Hs Hr | mid e t' -> Hs Hc Hd].
  - split; [cbn; observe report|]. exists report; auto.
  - exfalso. unfold select_message_id_like in Hs. rewrite Hv, Htext in Hs.
    destruct (find _ _) as [row|] eqn:F; [|discriminate].
    apply find_some in F as [Hin Hm]. apply filter_In in Hin as [_ Hn].
    rewrite Hm in Hn. discriminate.
Qed.

Lemma deleted_names_are_not_found_witness :
  let s' := db_after (delete_video 7 alice [py "matrix"] all_fine [] two_movies) in
  let r := search_received_movie_name 0 alice all_fine [] s' in
  existsb is_copy (emitted r) = false /\
  exists report,
    emitted r = [report] /\
    reply_sent report = Some (70%Z, movie_not_found_text, None).
Proof.
  apply (deleted_names_are_not_found 7 0 alice [py "matrix"] all_fine all_fine [] []
           two_movies alice).
  - reflexivity.
  - vm_compute; discriminate.
  - reflexivity.
Defined.

(** X9.  A video indexed under a new name can be found by any part of
    that name: after [index_video] accepted a post whose stripped caption
    contains the query, [search_received_movie_name] copies a message from
    the private channel to the asking chat, and when no older record
    matches the query, it is the message of that post. *)
Theorem indexed_video_is_found ADMIN P post c (o o' : oracle) h h' s msg :
  video post = true -> caption post = Some c -> c <> [] ->
  (forall row, In row (videos s) -> name row <> strip c) ->
  substring (text msg) (strip c) ->
  let s' := db_after (index_video ADMIN (Some post) o h s) in
  let r := search_received_movie_name P msg o' h' s' in
  (exists e t mid, emitted r = e :: t /\ copy_sent e = Some (chat_id msg, P, mid)) /\
  ((forall row, In row (videos s) -> like (like_pattern (text msg)) (name row) = false) ->
   exists e t,
     emitted r = e :: t /\
     copy_sent e = Some (chat_id msg, P, post_message_id post)).
Proof.
  intros Hv Hc Hne Hfresh Hsub. cbv zeta.
  destruct (index_video_fresh ADMIN post c o h s Hv Hc Hne Hfresh) as [-> _].
  set (new := Row (next_id (videos s)) (strip c) (post_message_id post)).
  set (s' := Store (videos s ++ [new]) (users s)).
  pose proof (like_contains _ _ Hsub) as Hm.
  destruct (search_received_movie_name_run P msg o' h' s') as [_ R].
  split.
  - destruct R as [report -> Hs Hr | mid e t' -> Hs Hc' Hd].
    + exfalso. unfold select_message_id_like in Hs.
      destruct (find _ (videos s')) as [row|] eqn:F; [discriminate|].
      assert (In new (videos s')) as Hin by (apply in_or_app; right; left; reflexivity).
      apply (find_none _ _ F) in Hin. cbn in Hin. congruence.
    + exists e, t', mid. auto.
  - intros Hnone.
    assert (select_message_id_like (like_pattern (text msg)) s' = Some (post_message_id post))
      as Sel.
    { unfold select_message_id_like.
      rewrite (find_first (fun r => like (like_pattern (text msg)) (name r))
                 (videos s') (videos s) new [] eq_refl Hm Hnone).
      reflexivity. }
    destruct R as [report -> Hs Hr | mid e t' -> Hs Hc' Hd]; [congruence|].
    exists e, t'. split; [reflexivity|]. congruence.
Qed.

Lemma indexed_video_is_found_witness :
  let s' := db_after (index_video 1 (Some new_post) all_fine [] empty_store) in
  let r := search_received_movie_name 0 bob all_fine [] s' in
  (exists e t mid, emitted r = e :: t /\ copy_sent e = Some (80%Z, 0%Z, mid)) /\
  ((forall row, In row (videos empty_store) ->
                like (like_pattern (py "atrix")) (name row) = false) ->
   exists e t, emitted r = e :: t /\ copy_sent e = Some (80%Z, 0%Z, 21%Z)).
Proof.
  apply (indexed_video_is_found 1 0 new_post (py "  Matrix 1 ") all_fine all_fine [] []
           empty_store bob).
  - reflexivity.
  - reflexivity.
  - vm_compute; discriminate.
  - intros row [].
  - apply contains_substring. vm_compute. reflexivity.
Defined.

(** ** Deep links *)

Lemma NoDup_map_inj {A B} (f : A -> B) (l : list A) x y :
  NoDup (map f l) -> In x l -> In y l -> f x = f y -> x = y.
Proof.
  induction l as [|z l IH]; cbn; [intros _ []|].
  intros H; inversion H as [|? ? Hz Hl]; subst.
  intros [<- | Hx] [<- | Hy] E; auto.
  - destruct Hz. rewrite E. apply in_map, Hy.
  - destruct Hz. rewrite <- E. apply in_map, Hx.
Qed.

(** X3.  The link that [get_link] gives the administrator leads back to the
    record it was made for.  When some record matches the non-empty query,
    the single reply carries [https://t.me/<username>?start=<id>] for the id
    of a matching record; and when that id, read back from its decimal text
    by the store, is the same id and ids are not shared, [send_video_by_id]
    with that text, for a user who passes the gate, copies the message of
    that very record. *)
Theorem link_leads_to_its_record ADMIN username P channels as_integer admin_msg args
        (o : oracle) h s row :
  from_user_id admin_msg = ADMIN ->
  join (py " ") args <> [] ->
  In row (videos s) ->
  like (like_pattern (join (py " ") args)) (name row) = true ->
  (forall row', In row' (videos s) -> as_integer (str_of_int (id row')) = Some (id row')) ->
  NoDup (map id (videos s)) ->
  let query := join (py " ") args in
  let r := get_link ADMIN username admin_msg args o h s in
  exists e linked,
    emitted r = [e] /\
    In linked (videos s) /\
    like (like_pattern query) (name linked) = true /\
    reply_sent e
    = Some (chat_id admin_msg,
            dedicated_link_text query
              (py "https://t.me/" ++ username ++ py "?start=" ++ str_of_int (id linked)),
            None) /\
    forall msg (o' : oracle) h',
      let r' := send_video_by_id P channels as_integer msg (str_of_int (id linked)) o' h' s in
      existsb lookup_fails (emitted r') = false ->
      exists lookups e' rest,
        emitted r' = lookups ++ e' :: rest /\
        forallb is_lookup lookups = true /\
        copy_sent e' = Some (chat_id msg, P, message_id linked).
Proof.
  intros Hadmin Hq Hin Hm Hread Hids. cbv zeta.
  unfold get_link. rewrite Hadmin, Z.eqb_refl. cbn [negb].
  destruct (join (py " ") args) as [|c q] eqn:Q; [congruence|]. clear Hq.
  unfold bind, sql, select_id_like; step.
  destruct (find (fun r => like (like_pattern (c :: q)) (name r)) (videos s))
    as [linked|] eqn:F.
  2: { apply (find_none _ _ F) in Hin. cbn in Hin. congruence. }
  apply find_some in F as [Hlin Hlm].
  cbn [option_map]. unfold await, ret; step.
  assert (forall msg (o' : oracle) h',
             let r' := send_video_by_id P channels as_integer msg (str_of_int (id linked))
                                        o' h' s in
             existsb lookup_fails (emitted r') = false ->
             exists lookups e' rest,
               emitted r' = lookups ++ e' :: rest /\
               forallb is_lookup lookups = true /\
               copy_sent e' = Some (chat_id msg, P, message_id linked)) as Back.
  { intros msg o' h'. cbv zeta.
    destruct (send_video_by_id_run P channels as_integer msg (str_of_int (id linked)) o' h' s)
      as [_ R].
    destruct R as [lookups prompt -> Hl Hf Hp | lookups report -> Hl Hs Hr
                  | lookups mid e t' -> Hl Hs Hc Hd]; intros F.
    - rewrite existsb_app, Hf in F. discriminate.
    - destruct (proj1 (select_by_id_none _ _ _) Hs linked Hlin (Hread linked Hlin)).
    - destruct (select_by_id_some _ _ _ _ Hs) as (n & row' & Hn & Hin' & Hid & Hmid).
      rewrite (Hread linked Hlin) in Hn. injection Hn as <-.
      assert (row' = linked) as -> by (apply (NoDup_map_inj id (videos s)); auto).
      exists lookups, e, t'. repeat split; auto.
      + apply Forall2_passes_lookups in Hl; tauto.
      + congruence. }
  answers o; eexists; exists linked; (split; [reflexivity|]);
    (split; [exact Hlin|]); (split; [exact Hlm|]); (split; [reflexivity | exact Back]).
Qed.

Lemma link_leads_to_its_record_witness :
  let r := get_link 7 (py "lexo_bot") alice [py "Matrix"] all_fine [] two_movies in
  exists e linked,
    emitted r = [e] /\
    In linked (videos two_movies) /\
    like (like_pattern (py "Matrix")) (name linked) = true /\
    reply_sent e
    = Some (70%Z,
            dedicated_link_text (py "Matrix")
              (py "https://t.me/" ++ py "lexo_bot" ++ py "?start=" ++ str_of_int (id linked)),
            None) /\
    forall msg (o' : oracle) h',
      let r' := send_video_by_id 0 lexobit decimal msg (str_of_int (id linked)) o' h'
                                 two_movies in
      existsb lookup_fails (emitted r') = false ->
      exists lookups e' rest,
        emitted r' = lookups ++ e' :: rest /\
        forallb is_lookup lookups = true /\
        copy_sent e' = Some (chat_id msg, 0%Z, message_id linked).
Proof.
  apply (link_leads_to_its_record 7 (py "lexo_bot") 0 lexobit decimal alice [py "Matrix"]
           all_fine [] two_movies (Row 1 (py "Matrix 1") 11)).
  - reflexivity.
  - vm_compute; discriminate.
  - left; reflexivity.
  - vm_compute; reflexivity.
  - intros row' [<- | [<- | [<- | []]]]; vm_compute; reflexivity.
  - cbn. repeat (constructor; [cbn; intuition discriminate|]). constructor.
Defined.

(** ** Wildcards in a query *)

Lemma like_only_percent q n :
  forallb (fun c => N.eqb c percent) q = true -> like (q ++ [percent]) n = true.
Proof.
  induction q as [|c q IH]; cbn [app forallb]; intros H.
  - apply like_percent_iff. exists n, []. rewrite app_nil_r. auto.
  - apply andb_true_iff in H as [Hc Hq]. apply N.eqb_eq in Hc; subst c.
    apply like_percent_iff. exists [], n. auto.
Qed.

(** X13.  A query made only of [%] characters matches every name.  With
    such a query the administrator's [/delvideo] deletes every record, and a
    search copies the message of the first record of the table. *)
Theorem percent_query_matches_every_name ADMIN P admin_msg args msg (o o' : oracle) h h' s :
  from_user_id admin_msg = ADMIN ->
  join (py " ") args <> [] ->
  forallb (fun c => N.eqb c percent) (join (py " ") args) = true ->
  forallb (fun c => N.eqb c percent) (text msg) = true ->
  (forall n, like (like_pattern (text msg)) n = true) /\
  videos (db_after (delete_video ADMIN admin_msg args o h s)) = [] /\
  (forall row rest,
      videos s = row :: rest ->
      exists e t,
        emitted (search_received_movie_name P msg o' h' s) = e :: t /\
        copy_sent e = Some (chat_id msg, P, message_id row)).
Proof.
  intros Hadmin Hq Hargs Htext.
  assert (forall q n, forallb (fun c => N.eqb c percent) q = true ->
                      like (like_pattern q) n = true) as All.
  { intros q n Hall. apply like_percent_iff. exists [], n.
    split; [reflexivity | apply like_only_percent, Hall]. }
  split; [intros n; apply All, Htext|]. split.
  - rewrite (delete_video_admin ADMIN admin_msg args o h s Hadmin Hq).
    induction (videos s) as [|x l IH]; cbn; [reflexivity|].
    rewrite (All _ (name x) Hargs). exact IH.
  - intros row rest Ev.
    destruct (search_received_movie_name_run P msg o' h' s) as [_ R].
    assert (select_message_id_like (like_pattern (text msg)) s = Some (message_id row)) as Sel.
    { unfold select_message_id_like. rewrite Ev. cbn.
      rewrite (All _ (name row) Htext). reflexivity. }
    destruct R as [report -> Hs Hr | mid e t' -> Hs Hc Hd]; [congruence|].
    exists e, t'. split; [reflexivity | congruence].
Qed.

Lemma percent_query_matches_every_name_witness :
  (forall n, like (like_pattern [percent]) n = true) /\
  videos (db_after (delete_video 7 alice [[percent]] all_fine [] two_movies)) = [] /\
  (forall row rest,
      videos two_movies = row :: rest ->
      exists e t,
        emitted (search_received_movie_name 0 (Message 8 (py "Bob") 80 [percent]) all_fine []
                                            two_movies)
        = e :: t /\
        copy_sent e = Some (80%Z, 0%Z, message_id row)).
Proof.
  apply (percent_query_matches_every_name 7 0 alice [[percent]]
           (Message 8 (py "Bob") 80 [percent]) all_fine all_fine [] [] two_movies);
    reflexivity || (vm_compute; discriminate).
Defined.

(** ** Stripping *)

Lemma lstrip_by_spec (p : char -> bool) (s : str) :
  exists dropped,
    s = dropped ++ lstrip_by p s /\
    forallb p dropped = true /\
    (forall x, hd_error (lstrip_by p s) = Some x -> p x = false).
Proof.
  induction s as [|c s (dropped & E & Hd & Hh)]; cbn [lstrip_by].
  - exists []. repeat split. discriminate.
  - destruct (p c) eqn:Pc.
    + exists (c :: dropped). cbn. rewrite Pc, Hd. repeat split; auto. congruence.
    + exists []. repeat split. cbn. congruence.
Qed.

Lemma forallb_rev {A} (p : A -> bool) (l : list A) :
  forallb p l = true -> forallb p (rev l) = true.
Proof.
  rewrite !forallb_forall. intros H x Hx. apply H, in_rev, Hx.
Qed.

Lemma strip_spec (s : str) :
  exists leading trailing,
    s = leading ++ strip s ++ trailing /\
    forallb isspace leading = true /\
    forallb isspace trailing = true /\
    (forall x, hd_error (strip s) = Some x -> isspace x = false) /\
    (forall x, hd_error (rev (strip s)) = Some x -> isspace x = false).
Proof.
  unfold strip.
  destruct (lstrip_by_spec isspace s) as (l & E1 & Hl & H1).
  destruct (lstrip_by_spec isspace (rev (lstrip_by isspace s))) as (r & E2 & Hr & H2).
  set (t1 := lstrip_by isspace s) in *.
  set (t2 := lstrip_by isspace (rev t1)) in *.
  assert (t1 = rev t2 ++ rev r) as E3.
  { rewrite <- rev_app_distr, <- E2, rev_involutive. reflexivity. }
  exists l, (rev r). repeat split.
  - rewrite <- E3. exact E1.
  - exact Hl.
  - apply forallb_rev, Hr.
  - intros x Hx. apply H1. rewrite E3. destruct (rev t2); [discriminate|exact Hx].
  - intros x Hx. rewrite rev_involutive in Hx. apply H2, Hx.
Qed.

(** X15.  The name under which [index_video] stores an accepted post is its
    caption without the whitespace around it: the caption is that name
    between two runs of whitespace, and the name neither begins nor ends
    with a whitespace character. *)
Theorem stored_name_is_trimmed_caption ADMIN post c (o : oracle) h s :
  video post = true -> caption post = Some c -> c <> [] ->
  (forall row, In row (videos s) -> name row <> strip c) ->
  exists i stored leading trailing,
    videos (db_after (index_video ADMIN (Some post) o h s))
    = videos s ++ [Row i stored (post_message_id post)] /\
    c = leading ++ stored ++ trailing /\
    forallb isspace leading = true /\
    forallb isspace trailing = true /\
    (forall x, hd_error stored = Some x -> isspace x = false) /\
    (forall x, hd_error (rev stored) = Some x -> isspace x = false).
Proof.
  intros Hv Hc Hne Hfresh.
  destruct (index_video_fresh ADMIN post c o h s Hv Hc Hne Hfresh) as [-> _].
  destruct (strip_spec c) as (leading & trailing & H).
  exists (next_id (videos s)), (strip c), leading, trailing. split; [reflexivity | exact H].
Qed.

Lemma stored_name_is_trimmed_caption_witness :
  exists i stored leading trailing,
    videos (db_after (index_video 1 (Some new_post) all_fine [] empty_store))
    = videos empty_store ++ [Row i stored (post_message_id new_post)] /\
    py "  Matrix 1 " = leading ++ stored ++ trailing /\
    forallb isspace leading = true /\
    forallb isspace trailing = true /\
    (forall x, hd_error stored = Some x -> isspace x = false) /\
    (forall x, hd_error (rev stored) = Some x -> isspace x = false).
Proof.
  apply (stored_name_is_trimmed_caption 1 new_post (py "  Matrix 1 ") all_fine []
           empty_store).
  - reflexivity.
  - reflexivity.
  - vm_compute; discriminate.
  - intros row [].
Defined.

(** X16.  Each join button of the prompts opens [https://t.me/] followed by
    the channel's name without its leading [@] signs: the required channel
    is that name after a run of [@], and the name does not begin with
    [@]. *)
Theorem join_buttons_link_to_channels channels :
  Forall2 (fun channel row =>
             exists ats handle,
               row = [InlineKeyboardButton (py "Join " ++ channel)
                                           (py "https://t.me/" ++ handle)] /\
               channel = ats ++ handle /\
               forallb (N.eqb 64) ats = true /\
               (forall x, hd_error handle = Some x -> x <> 64%N))
          channels (join_buttons channels).
Proof.
  induction channels as [|channel rest IH]; cbn; constructor; [|exact IH].
  destruct (lstrip_by_spec (N.eqb 64) channel) as (ats & E & Hats & Hhd).
  exists ats, (lstrip_at channel). repeat split; auto.
  intros x Hx ->. apply Hhd in Hx. discriminate.
Qed.
